(** * Auth controller and book form of the library front end

    A shallow embedding of
    - [src/frontend/src/controllers/authController.ts]
      ([handleLogin], [register], [handleLogout]) and
    - [src/frontend/src/components/BookForm.tsx]
      ([validate], [handleSubmit], [handleChange], [handleImageChange]),
    followed by the properties of the specification that concern them.

    JavaScript strings are sequences of UTF-16 code units, numbers are
    doubles kept by their exact value ([NaN], the infinities, integers and
    dyadic fractions), and handlers are computations in a small state /
    exception / trace monad: the state is the React state of the
    component, an exception is a rejected promise or a [throw], and the
    trace lists the calls the handler makes, in order. *)

From Stdlib Require Import ZArith NArith List Bool String Ascii Lia.
From Stdlib Require Import DecimalString DecimalPos.
From Stdlib Require QArith Qround.
Import ListNotations.

Set Implicit Arguments.

(** ** JavaScript values *)

Module Js.

(** A string is the list of its UTF-16 code units. *)
Definition code_unit := N.
Definition jsstring := list code_unit.

(** String literals of the source, written in ASCII. *)
Definition js (s : string) : jsstring :=
  map N_of_ascii (list_ascii_of_string s).

(** [s.length] *)
Definition length (s : jsstring) : nat := List.length s.

(** [a === b] on strings. *)
Fixpoint eqb (a b : jsstring) : bool :=
  match a, b with
  | [], [] => true
  | x :: a', y :: b' => N.eqb x y && eqb a' b'
  | _, _ => false
  end.

(** Truthiness of a string: every string but the empty one. *)
Definition truthy (s : jsstring) : bool :=
  match s with
  | [] => false
  | _ :: _ => true
  end.

(** [a || b] on strings. *)
Definition or_else (a b : jsstring) : jsstring :=
  if truthy a then a else b.

(** WhiteSpace and LineTerminator code points of ECMAScript, the ones
    [trim] and [parseInt] skip. *)
Definition is_white_space (c : code_unit) : bool :=
  ((9 <=? c) && (c <=? 13)            (* TAB LF VT FF CR *)
   || (c =? 32)                       (* SPACE *)
   || (c =? 160)                      (* NO-BREAK SPACE *)
   || (c =? 5760)                     (* U+1680 *)
   || ((8192 <=? c) && (c <=? 8202))  (* U+2000 .. U+200A *)
   || (c =? 8232) || (c =? 8233)      (* U+2028, U+2029 *)
   || (c =? 8239)                     (* U+202F *)
   || (c =? 8287)                     (* U+205F *)
   || (c =? 12288)                    (* U+3000 *)
   || (c =? 65279))%N.                (* U+FEFF *)

Fixpoint trimStart (s : jsstring) : jsstring :=
  match s with
  | [] => []
  | c :: s' => if is_white_space c then trimStart s' else s
  end.

Definition trimEnd (s : jsstring) : jsstring :=
  rev (trimStart (rev s)).

(** [s.trim()] *)
Definition trim (s : jsstring) : jsstring :=
  trimEnd (trimStart s).

(** [arr.includes(x)] on an array of strings. *)
Definition includes (arr : list jsstring) (x : jsstring) : bool :=
  existsb (eqb x) arr.

(** A number is an IEEE double: [NaN], an infinity, or a finite value,
    which is a dyadic rational.  Finite values are kept by their exact
    value: [Num z] is the integer [z] and [Frac m e], with [m] odd, is
    [m / 2^e], a value that is not an integer.  The two zeros are not told
    apart ([Num 0]): nothing here divides by a number or compares with
    [Object.is].  Not every [z] is a double; [to_double] below gives the
    one an integer rounds to. *)
Inductive number : Type :=
| NaN
| Infinity (negative : bool)
| Num (z : Z)
| Frac (m : Z) (e : positive).

(** [isNaN(x)] *)
Definition isNaN (x : number) : bool :=
  match x with
  | NaN => true
  | _ => false
  end.

(** [a < b]: false as soon as one side is [NaN]. *)
Definition lt (a b : number) : bool :=
  match a, b with
  | NaN, _ | _, NaN => false
  | Infinity n1, Infinity n2 => n1 && negb n2
  | Infinity n, _ => n
  | _, Infinity n => negb n
  | Num x, Num y => (x <? y)%Z
  | Num x, Frac m e => (x * 2 ^ Zpos e <? m)%Z
  | Frac m e, Num y => (m <? y * 2 ^ Zpos e)%Z
  | Frac m1 e1, Frac m2 e2 => (m1 * 2 ^ Zpos e2 <? m2 * 2 ^ Zpos e1)%Z
  end.

(** [Math.max(a, b)]: [NaN] as soon as one argument is [NaN], else the
    larger one. *)
Definition Math_max (a b : number) : number :=
  if isNaN a || isNaN b then NaN
  else if lt a b then b else a.

(** The double an integer rounds to (round to nearest, ties to even):
    the integer itself below 2^53; above, the 53 leading bits are kept
    and the rest rounded; from 2^1024 - 2^970 on, an infinity. *)
Definition to_double (z : Z) : number :=
  let a := Z.abs z in
  if (a <? 2 ^ 53)%Z then Num z
  else
    let e := (Z.log2 a - 52)%Z in
    let q := Z.shiftr a e in
    let r := (a - q * 2 ^ e)%Z in
    let half := (2 ^ (e - 1))%Z in
    let q' :=
      if (r <? half)%Z then q
      else if (half <? r)%Z then (q + 1)%Z
      else if Z.even q then q else (q + 1)%Z in
    let v := (q' * 2 ^ e)%Z in
    if (2 ^ 1024 <=? v)%Z then Infinity (z <? 0)%Z
    else Num (Z.sgn z * v).

(** Value of a code unit as a digit in radix [R], if it is one. *)
Definition digit_value (R : Z) (c : code_unit) : option Z :=
  let v :=
    if ((48 <=? c) && (c <=? 57))%N then Some (Z.of_N c - 48)%Z
    else if ((97 <=? c) && (c <=? 122))%N then Some (Z.of_N c - 97 + 10)%Z
    else if ((65 <=? c) && (c <=? 90))%N then Some (Z.of_N c - 65 + 10)%Z
    else None in
  match v with
  | Some d => if (d <? R)%Z then Some d else None
  | None => None
  end.

(** The longest prefix of [s] made of radix-[R] digits, as digit values. *)
Fixpoint digits_prefix (R : Z) (s : jsstring) : list Z :=
  match s with
  | [] => []
  | c :: s' =>
      match digit_value R c with
      | Some d => d :: digits_prefix R s'
      | None => []
      end
  end.

Definition mathInt (R : Z) (ds : list Z) : Z :=
  fold_left (fun acc d => acc * R + d)%Z ds 0%Z.

(** [parseInt(s)] with no radix: leading white space is skipped, then an
    optional sign, then an optional [0x] / [0X] that switches to radix
    16; the longest run of digits is read and what follows is ignored;
    no digit at all gives [NaN].  The result is the double the integer
    read rounds to (the standard lets an engine replace the digits after
    the 20th by zeros before rounding; the exact rounding is taken). *)
Definition parseInt (s : jsstring) : number :=
  let s1 := trimStart s in
  let '(sign, s2) :=
    match s1 with
    | c :: r =>
        if (c =? 45)%N then ((-1)%Z, r)
        else if (c =? 43)%N then (1%Z, r)
        else (1%Z, s1)
    | [] => (1%Z, s1)
    end in
  let '(R, s3) :=
    match s2 with
    | z :: x :: r =>
        if ((z =? 48) && ((x =? 120) || (x =? 88)))%N then (16%Z, r)
        else (10%Z, s2)
    | _ => (10%Z, s2)
    end in
  match digits_prefix R s3 with
  | [] => NaN
  | ds => to_double (sign * mathInt R ds)
  end.

(** *** Number to text

    [Number.prototype.toString] prints a finite [x > 0] from the integers
    [n], [k], [s] with [k] as small as possible such that [s] has [k]
    digits and [s * 10^(n-k)] is a decimal that rounds to [x]; of two
    such [s] the one nearest to [x].  The arithmetic is exact, on
    rationals. *)

Definition Q : Type := QArith_base.Q.

Definition Qlt_bool (a b : Q) : bool := negb (QArith_base.Qle_bool b a).

(** [b^n] for an exponent of either sign. *)
Definition qpow (b n : Z) : Q :=
  if (0 <=? n)%Z then QArith_base.inject_Z (b ^ n)
  else QArith_base.Qmake 1 (Z.to_pos (b ^ (- n))).

(** The [g] with [2^g <= x < 2^(g+1)]. *)
Definition ilog2 (x : Q) : Z :=
  let g :=
    (Z.log2 (QArith_base.Qnum x) - Z.log2 (Zpos (QArith_base.Qden x)))%Z in
  if QArith_base.Qle_bool (qpow 2 g) x then g else (g - 1)%Z.

(** The [n] with [10^(n-1) <= x < 10^n], looked for around the estimate
    [log2 x * log10 2]. *)
Definition decimal_position (x : Q) : Z :=
  let g := ((ilog2 x * 30103) / 100000)%Z in
  match find (fun n => QArith_base.Qle_bool (qpow 10 (n - 1)) x
                       && Qlt_bool x (qpow 10 n))
          [g - 1; g; g + 1; g + 2; g + 3]%Z with
  | Some n => n
  | None => (g + 1)%Z
  end.

(** Whether the decimal [d] rounds to the double [x]: it lies between the
    midpoints to the neighbours of [x], a midpoint itself counting when
    the mantissa of [x] is even.  The neighbour below a power of two is
    half as far as the one above. *)
Definition reads_back (x d : Q) : bool :=
  let ed := Z.max (ilog2 x - 52) (-1074) in
  let ulp := qpow 2 ed in
  let mant := Qround.Qfloor (QArith_base.Qdiv x ulp) in
  let hi := QArith_base.Qplus x (QArith_base.Qdiv ulp (QArith_base.inject_Z 2)) in
  let lo :=
    QArith_base.Qminus x
      (if (mant =? 2 ^ 52)%Z && (-1074 <? ed)%Z
       then QArith_base.Qdiv ulp (QArith_base.inject_Z 4)
       else QArith_base.Qdiv ulp (QArith_base.inject_Z 2)) in
  (Qlt_bool lo d && Qlt_bool d hi)
  || (Z.even mant
      && (QArith_base.Qeq_bool d lo || QArith_base.Qeq_bool d hi)).

(** The [s] of [k] digits for which [s * 10^(n-k)] rounds to [x], if
    there is one: one of the two integers around [x / 10^(n-k)]. *)
Definition candidate (x : Q) (k n : Z) : option Z :=
  let scale := qpow 10 (n - k) in
  let lo := Qround.Qfloor (QArith_base.Qdiv x scale) in
  let ok (s : Z) :=
    (10 ^ (k - 1) <=? s)%Z && (s <? 10 ^ k)%Z
    && reads_back x (QArith_base.Qmult (QArith_base.inject_Z s) scale) in
  let below :=
    QArith_base.Qminus x (QArith_base.Qmult (QArith_base.inject_Z lo) scale) in
  let above :=
    QArith_base.Qminus
      (QArith_base.Qmult (QArith_base.inject_Z (lo + 1)) scale) x in
  match ok lo, ok (lo + 1)%Z with
  | true, false => Some lo
  | false, true => Some (lo + 1)%Z
  | false, false => None
  | true, true =>
      if Qlt_bool below above then Some lo
      else if Qlt_bool above below then Some (lo + 1)%Z
      else if Z.even lo then Some lo else Some (lo + 1)%Z
  end.

(** [(n, k, s)] with the least [k] from [k] on; 17 digits always do. *)
Fixpoint shortest (x : Q) (n0 k : Z) (fuel : nat) : Z * Z * Z :=
  match candidate x k n0, candidate x k (n0 + 1) with
  | Some s, _ => (n0, k, s)
  | None, Some s => ((n0 + 1)%Z, k, s)
  | None, None =>
      match fuel with
      | O => (n0, k, Qround.Qfloor (QArith_base.Qdiv x (qpow 10 (n0 - k))))
      | S fuel' => shortest x n0 (k + 1)%Z fuel'
      end
  end.

(** The decimal digits of an integer, with its sign. *)
Definition digits_of (z : Z) : jsstring :=
  js (NilZero.string_of_int (Z.to_int z)).

Definition zeros (n : Z) : jsstring := repeat 48%N (Z.to_nat n).

(** The text of a finite [x > 0]: plain digits up to 21 digits before the
    point, a leading ["0."] down to 1e-6, exponent notation beyond. *)
Definition render (x : Q) : jsstring :=
  let '(n, k, s) := shortest x (decimal_position x) 1 16 in
  let ds := digits_of s in
  if ((k <=? n) && (n <=? 21))%Z then ds ++ zeros (n - k)
  else if ((0 <? n) && (n <=? 21))%Z then
    firstn (Z.to_nat n) ds ++ js "." ++ skipn (Z.to_nat n) ds
  else if ((-6 <? n) && (n <=? 0))%Z then js "0." ++ zeros (- n) ++ ds
  else
    let e := (n - 1)%Z in
    let exponent :=
      js (if (e <? 0)%Z then "e-" else "e+") ++ digits_of (Z.abs e) in
    match ds with
    | d :: (_ :: _) as rest => d :: js "." ++ rest ++ exponent
    | _ => ds ++ exponent
    end.

(** [x.toString()], also what a template literal prints of a number.  An
    integer below 2^53 is a double by itself and is printed digit for
    digit (which is what [render] gives for it). *)
Definition toString (x : number) : jsstring :=
  match x with
  | NaN => js "NaN"
  | Infinity negative => js (if negative then "-Infinity" else "Infinity")
  | Num z =>
      if (Z.abs z <? 2 ^ 53)%Z then digits_of z
      else
        (if (z <? 0)%Z then js "-" else [])
        ++ render (QArith_base.inject_Z (Z.abs z))
  | Frac m e =>
      (if (m <? 0)%Z then js "-" else [])
      ++ render (QArith_base.Qmake (Z.abs m) (2 ^ e))
  end.

End Js.

Import Js.

(** ** Handlers as computations

    An [async] handler runs over the React state [S] of its component and
    emits events of type [E] (the calls it makes, in order).  It completes
    normally or abruptly: a [throw], or the rejection of an awaited
    promise, which for an [async] function is the rejection of the promise
    it returns.  State setters act on the state in call order; a handler
    never reads the state back, it reads the values its closure captured
    at render time. *)

(** A thrown or rejected value, of type [unknown] in the source.  It is
    [null] or [undefined], of which no property can be read, or any other
    value, given by what reading its [message] yields: a string, maybe
    empty, or nothing. *)
Inductive failure : Type :=
| Nullish
| ErrorValue (message : option jsstring).

(** The [TypeError] the engine throws for [err.message] when [err] is
    [null] or [undefined].  Its text is the engine's own (V8's is given);
    nothing below depends on it. *)
Definition cannot_read_message : failure :=
  ErrorValue
    (Some (js "Cannot read properties of undefined (reading 'message')")).

Inductive completion (A : Type) : Type :=
| Normal (a : A)
| Throw (err : failure).

Arguments Normal {A} a.
Arguments Throw {A} err.

Section Handler.

Variables S E : Type.

Definition M (A : Type) : Type := S -> completion A * S * list E.

Definition ret {A} (a : A) : M A :=
  fun s => (Normal a, s, []).

Definition bind {A B} (m : M A) (k : A -> M B) : M B :=
  fun s =>
    match m s with
    | (Normal a, s1, t1) =>
        let '(c, s2, t2) := k a s1 in (c, s2, t1 ++ t2)
    | (Throw e, s1, t1) => (Throw e, s1, t1)
    end.

(** A call observed from outside. *)
Definition emit (e : E) : M unit :=
  fun s => (Normal tt, s, [e]).

(** A state setter. *)
Definition modify (f : S -> S) : M unit :=
  fun s => (Normal tt, f s, []).

(** [throw err], also a property read that fails. *)
Definition throw {A} (err : failure) : M A :=
  fun s => (Throw err, s, []).

(** [await p] where the promise [p] settles as [c]. *)
Definition await {A} (c : completion A) : M A :=
  fun s => (c, s, []).

(** [try { body } catch (err) { handler } finally { fin }] *)
Definition try_catch_finally
    (body : M unit) (handler : failure -> M unit) (fin : M unit) : M unit :=
  fun s =>
    let '(c1, s1, t1) := body s in
    let '(c2, s2, t2) :=
      match c1 with
      | Normal a => (Normal a, s1, [])
      | Throw err => handler err s1
      end in
    let '(c3, s3, t3) := fin s2 in
    (match c3 with
     | Normal _ => c2
     | Throw err => Throw err
     end, s3, t1 ++ t2 ++ t3).

Definition result {A} (r : completion A * S * list E) : completion A :=
  fst (fst r).
Definition final {A} (r : completion A * S * list E) : S :=
  snd (fst r).
Definition trace {A} (r : completion A * S * list E) : list E :=
  snd r.

(** Number of events of a trace that satisfy [p]. *)
Definition count (p : E -> bool) (t : list E) : nat :=
  List.length (filter p t).

End Handler.

Arguments ret {S E A} a.
Arguments bind {S E A B} m k.
Arguments emit {S E} e.
Arguments modify {S E} f.
Arguments throw {S E A} err.
Arguments await {S E A} c.
Arguments try_catch_finally {S E} body handler fin.
Arguments result {S E A} r.
Arguments final {S E A} r.
Arguments trace {S E A} r.
Arguments count {E} p t.

Declare Scope handler_scope.
Delimit Scope handler_scope with handler.
Notation "x <- m ;; k" := (bind m (fun x => k))
  (at level 100, m at next level, right associativity) : handler_scope.
Notation "m ;; k" := (bind m (fun _ => k))
  (at level 100, right associativity) : handler_scope.
Open Scope handler_scope.

(** ** controllers/authController.ts *)

Module Auth.

(** The envelope's [data] of a login or registration response. *)
Record token_data : Type := TokenData { access_token : option jsstring }.

(** [response.data], the envelope [{data, meta?}] of the gateway; a
    missing or [null] [data] is [None]. *)
Record envelope : Type := Envelope { data : option token_data }.

(** The remote calls of [authService], each with the way its promise
    settles. *)
Record authService : Type := AuthService {
  service_login : jsstring -> jsstring -> completion envelope;
  service_register :
    jsstring -> jsstring -> jsstring -> jsstring -> completion envelope;
  service_logout : completion unit
}.

(** What the controller does, in call order: its own state setters and
    the calls to its collaborators. *)
Inductive event : Type :=
| SetLoading (b : bool)
| SetError (e : option jsstring)
| CallLogin (email password : jsstring)
| CallRegister (name email password password_confirmation : jsstring)
| CallLogout
| StoreLogin (token : option jsstring)
| StoreLogout
| Navigate (to : jsstring)
| ConsoleLog (err : failure).

(** [useState(false)], [useState<string | null>(null)] *)
Record state : Type := State {
  loading : bool;
  error : option jsstring
}.

Definition init : state := {| loading := false; error := None |}.

Definition setLoading (b : bool) : M state event unit :=
  emit (SetLoading b) ;;
  modify (fun s => {| loading := b; error := error s |}).

Definition setError (e : option jsstring) : M state event unit :=
  emit (SetError e) ;;
  modify (fun s => {| loading := loading s; error := e |}).

(** The session store's [login] and [logout], and [navigate]. *)
Definition login (token : option jsstring) : M state event unit :=
  emit (StoreLogin token).

Definition logout : M state event unit :=
  emit StoreLogout.

Definition navigate (to : jsstring) : M state event unit :=
  emit (Navigate to).

(** [err.message]: a [TypeError] when [err] is [null] or [undefined]. *)
Definition read_message (err : failure) : M state event (option jsstring) :=
  match err with
  | Nullish => throw cannot_read_message
  | ErrorValue message => ret message
  end.

(** [message || fallback], for a [message] that is a string or
    [undefined]. *)
Definition message_or (message : option jsstring) (fallback : jsstring)
  : jsstring :=
  match message with
  | Some m => or_else m fallback
  | None => fallback
  end.

Section Controller.

Variable svc : authService.

Definition handleLogin (email password : jsstring) : M state event unit :=
  setLoading true ;;
  setError None ;;
  try_catch_finally
    (emit (CallLogin email password) ;;
     response <- await (service_login svc email password) ;;
     match data response with
     | Some d =>
         login (access_token d) ;;
         navigate (js "/")
     | None =>
         setError (Some (js "Login failed, please try again"))
     end)
    (fun err =>
       emit (ConsoleLog err) ;;
       message <- read_message err ;;
       setError (Some (message_or message (js "Invalid credentials"))))
    (setLoading false).

Definition register
    (name email password password_confirmation : jsstring)
  : M state event unit :=
  setLoading true ;;
  setError None ;;
  try_catch_finally
    (emit (CallRegister name email password password_confirmation) ;;
     response <-
       await (service_register svc name email password
                password_confirmation) ;;
     match data response with
     | Some d =>
         login (access_token d) ;;
         navigate (js "/")
     | None =>
         setError (Some (js "Registering failed, please try again"))
     end)
    (fun err =>
       message <- read_message err ;;
       setError (Some (message_or message (js "Register failed"))))
    (setLoading false).

Definition handleLogout : M state event unit :=
  emit CallLogout ;;
  await (service_logout svc) ;;
  logout ;;
  navigate (js "/login").

End Controller.

(** Recognisers of events, for counting. *)
Definition is_set_loading (e : event) : bool :=
  match e with SetLoading _ => true | _ => false end.
Definition is_store_login (e : event) : bool :=
  match e with StoreLogin _ => true | _ => false end.
Definition is_store_logout (e : event) : bool :=
  match e with StoreLogout => true | _ => false end.
Definition is_store_mutation (e : event) : bool :=
  is_store_login e || is_store_logout e.
Definition is_navigate (e : event) : bool :=
  match e with Navigate _ => true | _ => false end.
Definition is_navigate_to (to : jsstring) (e : event) : bool :=
  match e with Navigate p => Js.eqb p to | _ => false end.

End Auth.

(** ** components/BookForm.tsx *)

Module BookForm.

(** A [File] of the browser, of which the form reads [type]. *)
Record File : Type := { file_name : jsstring; type : jsstring }.

(** [BookAdd], the draft of the book being added. *)
Record BookAdd : Type := {
  title : jsstring;
  author : jsstring;
  cover : option File;
  quantity : number
}.

(** [{ title?: string, author?: string, quantity?: string, cover?: string }] *)
Module Errors.

Record t : Type := {
  title : option jsstring;
  author : option jsstring;
  quantity : option jsstring;
  cover : option jsstring
}.

Definition empty : t :=
  {| title := None; author := None; quantity := None; cover := None |}.

Definition set_title (e : t) (m : jsstring) : t :=
  {| title := Some m; author := author e;
     quantity := quantity e; cover := cover e |}.
Definition set_author (e : t) (m : jsstring) : t :=
  {| title := title e; author := Some m;
     quantity := quantity e; cover := cover e |}.
Definition set_quantity (e : t) (m : jsstring) : t :=
  {| title := title e; author := author e;
     quantity := Some m; cover := cover e |}.
Definition set_cover (e : t) (m : jsstring) : t :=
  {| title := title e; author := author e;
     quantity := quantity e; cover := Some m |}.

Definition key (name : string) (field : option jsstring) : list jsstring :=
  match field with
  | Some _ => [js name]
  | None => []
  end.

(** [Object.keys(e)] (in an order of its own; only the number counts). *)
Definition keys (e : t) : list jsstring :=
  key "title" (title e) ++ key "author" (author e)
  ++ key "quantity" (quantity e) ++ key "cover" (cover e).

End Errors.

(** An entry of a [FormData]: a string or a file. *)
Inductive entry : Type :=
| Text (s : jsstring)
| Blob (f : File).

Definition FormData : Type := list (jsstring * entry).

(** [form.append(name, value)] *)
Definition append (form : FormData) (name : string) (value : entry) : FormData :=
  form ++ [(js name, value)].

(** [useBookStore()]: how the promise of [add] settles, and the page
    cursor.  The promise of [getAll] is dropped by the form. *)
Record bookStore : Type := {
  store_add : FormData -> completion unit;
  current_page : Z
}.

(** The three component states. *)
Record state : Type := {
  st_formData : BookAdd;
  st_preview : jsstring;
  st_errors : Errors.t
}.

Definition initial_formData : BookAdd :=
  {| title := js ""; author := js ""; cover := None; quantity := Num 1 |}.

Definition init : state :=
  {| st_formData := initial_formData;
     st_preview := js "";
     st_errors := Errors.empty |}.

(** What the form does, in call order. *)
Inductive event : Type :=
| PreventDefault
| SetFormData (v : BookAdd)
| SetPreview (v : jsstring)
| SetErrors (v : Errors.t)
| Add (form : FormData)
| AddResolved
| GetAll (page : Z)
| Handle.

(** [setFormData(f)], with the updater applied to the latest state. *)
Definition setFormData (f : BookAdd -> BookAdd) : M state event unit :=
  fun s =>
    let v := f (st_formData s) in
    (Normal tt,
     {| st_formData := v; st_preview := st_preview s;
        st_errors := st_errors s |},
     [SetFormData v]).

Definition setPreview (v : jsstring) : M state event unit :=
  emit (SetPreview v) ;;
  modify (fun s => {| st_formData := st_formData s; st_preview := v;
                      st_errors := st_errors s |}).

Definition setErrors (v : Errors.t) : M state event unit :=
  emit (SetErrors v) ;;
  modify (fun s => {| st_formData := st_formData s;
                      st_preview := st_preview s; st_errors := v |}).

Definition allowedTypes : list jsstring :=
  [js "image/jpeg"; js "image/png"; js "image/gif"].

(** The [newErrors] object that [validate] builds from the draft, one
    [if] of the source per [let]. *)
Definition newErrors (formData : BookAdd) : Errors.t :=
  let e := Errors.empty in
  let e :=
    if negb (truthy (trim (title formData)))
       || (Js.length (title formData) <? 3)%nat
    then Errors.set_title e (js "Title must be at least 3 characters long.")
    else e in
  let e :=
    if negb (truthy (trim (author formData)))
       || (Js.length (author formData) <? 3)%nat
    then Errors.set_author e
           (js "Author name must be at least 3 characters long.")
    else e in
  let e :=
    if lt (quantity formData) (Num 1) || isNaN (quantity formData)
    then Errors.set_quantity e (js "Quantity must be a positive number.")
    else e in
  let e :=
    match cover formData with
    | Some file =>
        (* a [File] is truthy: the second disjunct is [false] here *)
        if negb (includes allowedTypes (type file)) || false
        then Errors.set_cover e
               (js "Only JPG, PNG, or GIF images are allowed.")
        else e
    | None => e
    end in
  let e :=
    match cover formData with
    | Some _ => e
    | None => Errors.set_cover e (js "Please upload an image.")
    end in
  e.

(** The names of the inputs whose [onChange] is [handleChange]. *)
Inductive input_name : Type :=
| name_title
| name_author
| name_quantity.

Section Component.

(** What a render captures for its handlers: the store and the draft
    of that render. *)
Variable store : bookStore.
Variable formData : BookAdd.

Definition validate : M state event bool :=
  let e := newErrors formData in
  setErrors e ;;
  ret (List.length (Errors.keys e) =? 0)%nat.

(** [await add(form)] *)
Definition add (form : FormData) : M state event unit :=
  emit (Add form) ;;
  await (store_add store form) ;;
  emit AddResolved.

Definition getAll (page : Z) : M state event unit :=
  emit (GetAll page).

Definition handle : M state event unit :=
  emit Handle.

Definition handleSubmit : M state event unit :=
  emit PreventDefault ;;
  valid <- validate ;;
  if negb valid then ret tt
  else
    let form : FormData := [] in
    let form := append form "title" (Text (title formData)) in
    let form := append form "author" (Text (author formData)) in
    let form :=
      append form "quantity" (Text (toString (quantity formData))) in
    let form :=
      append form "cover"
        match cover formData with
        | Some file => Blob file
        | None => Text (js "null")
        end in
    add form ;;
    getAll (current_page store) ;;
    setFormData (fun _ => {| title := js ""; author := js "";
                             cover := None; quantity := Num 1 |}) ;;
    setPreview (js "") ;;
    handle.

(** [handleChange] for an input named [name] whose value is [value];
    [validate] is the one of this render and reads the captured draft. *)
Definition handleChange (name : input_name) (value : jsstring)
  : M state event unit :=
  setFormData (fun prev =>
    match name with
    | name_title =>
        {| title := value; author := author prev;
           cover := cover prev; quantity := quantity prev |}
    | name_author =>
        {| title := title prev; author := value;
           cover := cover prev; quantity := quantity prev |}
    | name_quantity =>
        {| title := title prev; author := author prev;
           cover := cover prev;
           quantity := Math_max (Num 1) (parseInt value) |}
    end) ;;
  validate ;;
  ret tt.

(** [handleImageChange] with [files] the input's file list and
    [reader_result] the data URL the reader ends with; the [onloadend]
    callback is run where the read is started. *)
Definition handleImageChange (files : option (list File))
    (reader_result : jsstring) : M state event unit :=
  match files with
  | Some (file0 :: _) =>
      setPreview reader_result ;;
      setFormData (fun prev =>
        {| title := title prev; author := author prev;
           cover := Some file0; quantity := quantity prev |})
  | _ => ret tt
  end.

End Component.

(** Handlers as the rendered form binds them: each runs with the draft of
    the state it is rendered from. *)
Definition submit (store : bookStore) (s : state) :=
  handleSubmit store (st_formData s) s.

Definition onFieldChange (name : input_name)
    (value : jsstring) (s : state) :=
  handleChange (st_formData s) name value s.

Definition onCoverChange (files : option (list File))
    (reader_result : jsstring) (s : state) :=
  handleImageChange files reader_result s.

(** The errors a validation pass of the draft [fd] leaves in the state. *)
Definition reported (fd : BookAdd) (s : state) : Errors.t :=
  st_errors (final (validate fd s)).

Definition is_add (e : event) : bool :=
  match e with Add _ => true | _ => false end.
Definition is_getAll (e : event) : bool :=
  match e with GetAll _ => true | _ => false end.
Definition is_network (e : event) : bool :=
  is_add e || is_getAll e.
Definition is_handle (e : event) : bool :=
  match e with Handle => true | _ => false end.

End BookForm.

(** ** The statements of the specification that the code does not meet,
    as the specification words them *)

Module Stated.

Import Auth.

(** Logout: whatever the remote call does, the session store's [logout]
    is called exactly once and so is the navigation to the login page. *)
Definition logout_clears_session (svc : authService) (s : Auth.state) : Prop :=
  let r := handleLogout svc s in
  count is_store_logout (trace r) = 1%nat
  /\ count (is_navigate_to (js "/login")) (trace r) = 1%nat.

(** The token of an envelope, when it carries a non-empty one. *)
Definition token_of (env : envelope) : option jsstring :=
  match data env with
  | Some d =>
      match access_token d with
      | Some tok => if truthy tok then Some tok else None
      | None => None
      end
  | None => None
  end.

(** Login, on a response [env]: a non-empty token is handed to the store
    once and home is navigated to, with no error; an empty or absent token
    sets the error and touches neither the store nor the location. *)
Definition login_branches_on_token
    (svc : authService) (email password : jsstring) (s : Auth.state)
    (env : envelope) : Prop :=
  let r := handleLogin svc email password s in
  match token_of env with
  | Some tok =>
      trace r = [SetLoading true; SetError None; CallLogin email password;
                 StoreLogin (Some tok); Navigate (js "/"); SetLoading false]
      /\ error (final r) = None
  | None =>
      error (final r) = Some (js "Login failed, please try again")
      /\ count is_store_mutation (trace r) = 0%nat
      /\ count is_navigate (trace r) = 0%nat
  end.

End Stated.

(** ** Concrete collaborators used in the examples *)

Definition network_down : failure :=
  ErrorValue (Some (js "network down")).

(** A gateway none of whose calls gets through. *)
Definition svc_down : Auth.authService :=
  {| Auth.service_login := fun _ _ => Throw network_down;
     Auth.service_register := fun _ _ _ _ => Throw network_down;
     Auth.service_logout := Throw network_down |}.

(** A gateway that answers every login and registration with [env]. *)
Definition svc_answering (env : Auth.envelope) : Auth.authService :=
  {| Auth.service_login := fun _ _ => Normal env;
     Auth.service_register := fun _ _ _ _ => Normal env;
     Auth.service_logout := Normal tt |}.

Definition with_token (tok : option jsstring) : Auth.envelope :=
  {| Auth.data := Some {| Auth.access_token := tok |} |}.

Definition without_data : Auth.envelope :=
  {| Auth.data := None |}.

Module StatedForm.

Import BookForm.

(** Title and author: an error exactly when the trimmed length is
    below 3. *)
Definition trimmed_length_rule (fd : BookAdd) (s : BookForm.state) : Prop :=
  (Errors.title (reported fd s) <> None
   <-> (Js.length (trim (title fd)) < 3)%nat)
  /\ (Errors.author (reported fd s) <> None
      <-> (Js.length (trim (author fd)) < 3)%nat).

(** A change of the quantity input stores an integer that is at least 1. *)
Definition quantity_floored (value : jsstring) (s : BookForm.state) : Prop :=
  exists n : Z,
    quantity (st_formData (final (onFieldChange name_quantity value s)))
    = Num n
    /\ (1 <= n)%Z.

(** A rejected [add]: no [getAll], draft, preview and field errors as
    they were, no close signal, and the rejection reaches the caller. *)
Definition add_rejection_leaves_state
    (store : bookStore) (s : BookForm.state) (err : failure) : Prop :=
  let r := submit store s in
  count is_getAll (trace r) = 0%nat
  /\ st_formData (final r) = st_formData s
  /\ st_preview (final r) = st_preview s
  /\ st_errors (final r) = st_errors s
  /\ count is_handle (trace r) = 0%nat
  /\ result r = Throw err.

End StatedForm.

(** A draft is valid when a validation pass finds nothing. *)
Definition valid_draft (fd : BookForm.BookAdd) : Prop :=
  BookForm.Errors.keys (BookForm.newErrors fd) = [].

(** The multipart payload of a draft, entry by entry. *)
Definition payload (fd : BookForm.BookAdd) : BookForm.FormData :=
  [ (js "title", BookForm.Text (BookForm.title fd));
    (js "author", BookForm.Text (BookForm.author fd));
    (js "quantity", BookForm.Text (toString (BookForm.quantity fd)));
    (js "cover",
      match BookForm.cover fd with
      | Some file => BookForm.Blob file
      | None => BookForm.Text (js "null")
      end) ].

Definition png_file : BookForm.File :=
  {| BookForm.file_name := js "dune.png"; BookForm.type := js "image/png" |}.

Definition pdf_file : BookForm.File :=
  {| BookForm.file_name := js "dune.pdf";
     BookForm.type := js "application/pdf" |}.

Definition dune : BookForm.BookAdd :=
  {| BookForm.title := js "Dune"; BookForm.author := js "Herbert";
     BookForm.cover := Some png_file; BookForm.quantity := Num 2 |}.

(** A title of three code units of which one is not white space. *)
Definition padded : BookForm.BookAdd :=
  {| BookForm.title := js " a "; BookForm.author := js "Herbert";
     BookForm.cover := Some png_file; BookForm.quantity := Num 2 |}.

(** A store whose [add] resolves, and one whose [add] rejects. *)
Definition store_up : BookForm.bookStore :=
  {| BookForm.store_add := fun _ => Normal tt; BookForm.current_page := 3 |}.

Definition store_down : BookForm.bookStore :=
  {| BookForm.store_add := fun _ => Throw network_down;
     BookForm.current_page := 3 |}.

(** The form after a cover was chosen, then a title and an author typed,
    in that order, starting from the mounted form. *)
Definition typed_in : BookForm.state :=
  let s1 :=
    final (BookForm.onCoverChange (Some [png_file])
             (js "data:image/png;base64,AAAA") BookForm.init) in
  let s2 := final (BookForm.onFieldChange BookForm.name_title (js "Dune") s1) in
  final (BookForm.onFieldChange BookForm.name_author (js "Herbert") s2).

(** ** services/bookService.ts *)

Module BookService.

Inductive method : Type := GET | POST | PUT | DELETE.

Section Service.

(** [Partial<Book>], the body of an update, and what a call of the [api]
    client returns; [types/Book] and [api/apiClient] are not among the
    sources at hand and are taken as given. *)
Variables PartialBook R : Type.

Inductive body : Type :=
| NoBody
| FormBody (data : BookForm.FormData)
| JsonBody (data : PartialBook).

(** A call of the [api] client: the method called, its path argument and
    its data argument. *)
Record request : Type := {
  verb : method;
  path : jsstring;
  req_body : body
}.

Variable api : request -> R.

Definition getAll : R :=
  api {| verb := GET; path := js "/books"; req_body := NoBody |}.

(** The template literal [`/books/${id}`] renders [id] with [toString]. *)
Definition get (id : number) : R :=
  api {| verb := GET; path := js "/books/" ++ toString id;
         req_body := NoBody |}.

Definition create (data : BookForm.FormData) : R :=
  api {| verb := POST; path := js "/books"; req_body := FormBody data |}.

Definition update (id : number) (data : PartialBook) : R :=
  api {| verb := PUT; path := js "/books/" ++ toString id;
         req_body := JsonBody data |}.

Definition remove (id : number) : R :=
  api {| verb := DELETE; path := js "/books/" ++ toString id;
         req_body := NoBody |}.

End Service.

(** The client that answers each call with the call itself. *)
Definition recording (PartialBook : Type)
  : request PartialBook -> request PartialBook :=
  fun r => r.

End BookService.

(** ** States the components can be in *)

(** The states of the form between two handler runs, from the mounted
    form on: a field change, a cover read that ended, or a submit against
    whatever store. *)
Inductive form_reachable : BookForm.state -> Prop :=
| reach_mounted : form_reachable BookForm.init
| reach_field_change (s : BookForm.state) (name : BookForm.input_name)
    (value : jsstring) :
    form_reachable s ->
    form_reachable (final (BookForm.onFieldChange name value s))
| reach_cover_change (s : BookForm.state)
    (files : option (list BookForm.File)) (reader_result : jsstring) :
    form_reachable s ->
    form_reachable (final (BookForm.onCoverChange files reader_result s))
| reach_submit (s : BookForm.state) (store : BookForm.bookStore) :
    form_reachable s ->
    form_reachable (final (BookForm.submit store s)).

(** The states of the auth controller between two handler runs, whatever
    the gateway answers. *)
Inductive auth_reachable : Auth.state -> Prop :=
| reach_idle : auth_reachable Auth.init
| reach_login (s : Auth.state) (svc : Auth.authService)
    (email password : jsstring) :
    auth_reachable s ->
    auth_reachable (final (Auth.handleLogin svc email password s))
| reach_register (s : Auth.state) (svc : Auth.authService)
    (name email password confirmation : jsstring) :
    auth_reachable s ->
    auth_reachable
      (final (Auth.register svc name email password confirmation s))
| reach_logout (s : Auth.state) (svc : Auth.authService) :
    auth_reachable s ->
    auth_reachable (final (Auth.handleLogout svc s)).

(** A number below 1: negative infinity or a finite value below 1. *)
Definition below_one (x : number) : Prop :=
  match x with
  | NaN => False
  | Infinity negative => negative = true
  | Num z => (z < 1)%Z
  | Frac m e => (m < 2 ^ Zpos e)%Z
  end.

(** A number that is at least 1: positive infinity or a finite value that
    is at least 1. *)
Definition at_least_one (x : number) : Prop :=
  match x with
  | NaN => False
  | Infinity negative => negative = false
  | Num z => (1 <= z)%Z
  | Frac m e => (2 ^ Zpos e <= m)%Z
  end.

(** Integers that a double holds exactly and that [toString] prints
    digit for digit. *)
Definition safe_integer (z : Z) : Prop := (Z.abs z < 2 ^ 53)%Z.

(** A gateway whose login is refused with no message. *)
Definition svc_refusing : Auth.authService :=
  {| Auth.service_login := fun _ _ => Throw (ErrorValue None);
     Auth.service_register := fun _ _ _ _ => Throw (ErrorValue None);
     Auth.service_logout := Normal tt |}.

(** A gateway whose calls reject with [undefined], as [Promise.reject()]
    does. *)
Definition svc_rejecting_undefined : Auth.authService :=
  {| Auth.service_login := fun _ _ => Throw Nullish;
     Auth.service_register := fun _ _ _ _ => Throw Nullish;
     Auth.service_logout := Throw Nullish |}.

(** ** Properties *)

(** *** JavaScript values *)

Example parseInt_42 : parseInt (js " 42px") = Num 42.
Proof. reflexivity. Qed.

Example parseInt_neg5 : parseInt (js "-5") = Num (-5).
Proof. reflexivity. Qed.

Example parseInt_hex : parseInt (js "0x1F") = Num 31.
Proof. reflexivity. Qed.

Example parseInt_abc : parseInt (js "abc") = NaN.
Proof. reflexivity. Qed.

Example parseInt_empty : parseInt (js "") = NaN.
Proof. reflexivity. Qed.

Example trim_spaces : trim (js "  a b  ") = js "a b".
Proof. reflexivity. Qed.

Example toString_12 : toString (Num 12) = js "12".
Proof. reflexivity. Qed.

(** Rounding to a double: 2^53 + 1 is a tie and goes to the even
    mantissa; the largest double is 2^1024 - 2^971, and half a step
    beyond it is infinite. *)
Example to_double_tie : to_double (2 ^ 53 + 1) = Num (2 ^ 53).
Proof. vm_compute. reflexivity. Qed.

Example to_double_tie_up : to_double (2 ^ 53 + 3) = Num (2 ^ 53 + 4).
Proof. vm_compute. reflexivity. Qed.

Example to_double_largest :
  to_double (2 ^ 1024 - 2 ^ 970 - 1) = Num (2 ^ 1024 - 2 ^ 971)
  /\ to_double (2 ^ 1024 - 2 ^ 970) = Infinity false
  /\ to_double (- 10 ^ 400) = Infinity true.
Proof. vm_compute. repeat split. Qed.

Example parseInt_past_safe :
  parseInt (js "9007199254740993") = Num 9007199254740992.
Proof. vm_compute. reflexivity. Qed.

(** Texts of numbers past the safe integers, and of fractions. *)
Example toString_two_to_60 :
  toString (to_double (2 ^ 60)) = js "1152921504606847000".
Proof. vm_compute. reflexivity. Qed.

Example toString_1e21 : toString (to_double (10 ^ 21)) = js "1e+21".
Proof. vm_compute. reflexivity. Qed.

Example toString_1e23 : toString (to_double (10 ^ 23)) = js "1e+23".
Proof. vm_compute. reflexivity. Qed.

Example toString_long :
  toString (to_double 123456789012345678901234567890)
  = js "1.2345678901234568e+29".
Proof. vm_compute. reflexivity. Qed.

Example toString_largest :
  toString (to_double (2 ^ 1024 - 2 ^ 970 - 1))
  = js "1.7976931348623157e+308".
Proof. vm_compute. reflexivity. Qed.

Example toString_infinities :
  toString (Infinity false) = js "Infinity"
  /\ toString (Infinity true) = js "-Infinity".
Proof. split; reflexivity. Qed.

Example toString_fractions :
  toString (Frac 1 1) = js "0.5"
  /\ toString (Frac (-3) 1) = js "-1.5"
  /\ toString (Frac 3602879701896397 55) = js "0.1"
  /\ toString (Frac 1351079888211149 52) = js "0.30000000000000004"
  /\ toString (Frac 1 20) = js "9.5367431640625e-7"
  /\ toString (Frac 1 1074) = js "5e-324".
Proof. vm_compute. repeat split. Qed.

(** On safe integers the shortest text is the digits of the integer. *)
Example render_safe_integers :
  map (fun z => render (QArith_base.inject_Z z))
    [1; 7; 10; 1200; 123456789; 2 ^ 53 - 1]%Z
  = map digits_of [1; 7; 10; 1200; 123456789; 2 ^ 53 - 1]%Z.
Proof. vm_compute. reflexivity. Qed.

Lemma eqb_eq (a b : jsstring) : Js.eqb a b = true <-> a = b.
Proof.
  revert b; induction a as [|x a IH]; intros [|y b]; simpl;
    try (split; [discriminate | discriminate]); [tauto|].
  rewrite andb_true_iff, N.eqb_eq, IH.
  split; [intros [-> ->]; reflexivity | intros H; injection H; auto].
Qed.

Lemma eqb_neq (a b : jsstring) : Js.eqb a b = false <-> a <> b.
Proof.
  rewrite <- eqb_eq. destruct (Js.eqb a b); split; congruence.
Qed.

Lemma length_trimStart (s : jsstring) :
  (Js.length (trimStart s) <= Js.length s)%nat.
Proof.
  unfold Js.length.
  induction s as [|c s IH]; simpl; [lia|].
  destruct (is_white_space c); simpl; lia.
Qed.

Lemma length_trim (s : jsstring) : (Js.length (trim s) <= Js.length s)%nat.
Proof.
  unfold trim, trimEnd.
  pose proof (length_trimStart s) as H1.
  pose proof (length_trimStart (rev (trimStart s))) as H2.
  unfold Js.length in *. rewrite length_rev in *. lia.
Qed.

Lemma truthy_false (s : jsstring) : truthy s = false <-> s = [].
Proof. destruct s; simpl; split; congruence. Qed.

(** *** Auth controller *)

Section AuthProperties.

Import Auth.

Variable svc : authService.

(** What [handleLogin] does, by the way the gateway call settles. *)
Lemma handleLogin_run (email password : jsstring) (s : Auth.state) :
  handleLogin svc email password s =
  match service_login svc email password with
  | Normal env =>
      match data env with
      | Some d =>
          (Normal tt, {| loading := false; error := None |},
           [SetLoading true; SetError None; CallLogin email password;
            StoreLogin (access_token d); Navigate (js "/");
            SetLoading false])
      | None =>
          (Normal tt,
           {| loading := false;
              error := Some (js "Login failed, please try again") |},
           [SetLoading true; SetError None; CallLogin email password;
            SetError (Some (js "Login failed, please try again"));
            SetLoading false])
      end
  | Throw Nullish =>
      (Throw cannot_read_message,
       {| loading := false; error := None |},
       [SetLoading true; SetError None; CallLogin email password;
        ConsoleLog Nullish; SetLoading false])
  | Throw (ErrorValue message) =>
      (Normal tt,
       {| loading := false;
          error := Some (message_or message (js "Invalid credentials")) |},
       [SetLoading true; SetError None; CallLogin email password;
        ConsoleLog (ErrorValue message);
        SetError (Some (message_or message (js "Invalid credentials")));
        SetLoading false])
  end.
Proof.
  unfold handleLogin, try_catch_finally, bind, setLoading, setError,
    login, navigate, emit, modify, await.
  simpl.
  destruct (service_login svc email password) as [[[d|]]|[|message]];
    reflexivity.
Qed.

(** What [register] does, by the way the gateway call settles. *)
Lemma register_run (name email password confirmation : jsstring)
    (s : Auth.state) :
  register svc name email password confirmation s =
  match service_register svc name email password confirmation with
  | Normal env =>
      match data env with
      | Some d =>
          (Normal tt, {| loading := false; error := None |},
           [SetLoading true; SetError None;
            CallRegister name email password confirmation;
            StoreLogin (access_token d); Navigate (js "/");
            SetLoading false])
      | None =>
          (Normal tt,
           {| loading := false;
              error := Some (js "Registering failed, please try again") |},
           [SetLoading true; SetError None;
            CallRegister name email password confirmation;
            SetError (Some (js "Registering failed, please try again"));
            SetLoading false])
      end
  | Throw Nullish =>
      (Throw cannot_read_message,
       {| loading := false; error := None |},
       [SetLoading true; SetError None;
        CallRegister name email password confirmation;
        SetLoading false])
  | Throw (ErrorValue message) =>
      (Normal tt,
       {| loading := false;
          error := Some (message_or message (js "Register failed")) |},
       [SetLoading true; SetError None;
        CallRegister name email password confirmation;
        SetError (Some (message_or message (js "Register failed")));
        SetLoading false])
  end.
Proof.
  unfold register, try_catch_finally, bind, setLoading, setError,
    login, navigate, emit, modify, await.
  simpl.
  destruct (service_register svc name email password confirmation)
    as [[[d|]]|[|message]]; reflexivity.
Qed.

(** What [handleLogout] does, by the way the gateway call settles. *)
Lemma handleLogout_run (s : Auth.state) :
  handleLogout svc s =
  match service_logout svc with
  | Normal _ =>
      (Normal tt, s, [CallLogout; StoreLogout; Navigate (js "/login")])
  | Throw err => (Throw err, s, [CallLogout])
  end.
Proof.
  unfold handleLogout, bind, logout, navigate, emit, await.
  simpl.
  destruct (service_logout svc) as [[]|err]; reflexivity.
Qed.

End AuthProperties.

Import Auth.

(** C1, as stated, fails: when the remote logout call rejects with
    "network down", [handleLogout] stops at the [await]; the session
    store's [logout] is not called once and the login page is not
    navigated to. *)
Lemma handleLogout_rejected_keeps_session :
  ~ Stated.logout_clears_session svc_down Auth.init.
Proof.
  unfold Stated.logout_clears_session.
  rewrite handleLogout_run. simpl.
  intros [H _]. discriminate H.
Qed.

(** C1, amended: [handleLogout] first issues the remote logout call and
    leaves the controller's own state alone.  If that call resolves, the
    session store's [logout] is called exactly once and then the login
    page is navigated to exactly once, and the handler completes.  If the
    call rejects, neither is done and the rejection is the handler's own. *)
Theorem handleLogout_by_outcome (svc : authService) (s : Auth.state) :
  let r := handleLogout svc s in
  final r = s
  /\ match service_logout svc with
     | Normal _ =>
         result r = Normal tt
         /\ trace r = [CallLogout; StoreLogout; Navigate (js "/login")]
         /\ count is_store_logout (trace r) = 1%nat
         /\ count (is_navigate_to (js "/login")) (trace r) = 1%nat
         /\ count is_navigate (trace r) = 1%nat
     | Throw err =>
         result r = Throw err
         /\ trace r = [CallLogout]
         /\ count is_store_mutation (trace r) = 0%nat
         /\ count is_navigate (trace r) = 0%nat
     end.
Proof.
  intros r; subst r. rewrite handleLogout_run.
  destruct (service_logout svc) as [[]|err]; simpl; repeat split.
Qed.

(** C4, as stated, fails: a response whose [data] is present but carries
    no token, or an empty one, is not treated as a failed login; the
    absent (or empty) token is handed to the session store and home is
    navigated to, with no error. *)
Lemma handleLogin_tokenless_data_logs_in :
  ~ Stated.login_branches_on_token
      (svc_answering (with_token None)) (js "a@b.com") (js "pw") Auth.init
      (with_token None)
  /\ ~ Stated.login_branches_on_token
      (svc_answering (with_token (Some (js ""))))
      (js "a@b.com") (js "pw") Auth.init (with_token (Some (js ""))).
Proof.
  unfold Stated.login_branches_on_token.
  split; rewrite handleLogin_run; simpl; intros [H _]; discriminate H.
Qed.

(** C4, amended: on a successful login response the branch is on the
    envelope's [data], not on the token.  With [data] present, the session
    store's [login] is called exactly once, with [data]'s [access_token]
    whatever it is, then home is navigated to, and [error] stays null.
    With [data] absent, [error] is "Login failed, please try again", the
    session store is not touched and nothing is navigated to. *)
Theorem handleLogin_success
    (svc : authService) (email password : jsstring) (s : Auth.state)
    (env : envelope) :
  service_login svc email password = Normal env ->
  let r := handleLogin svc email password s in
  result r = Normal tt
  /\ match data env with
     | Some d =>
         trace r = [SetLoading true; SetError None; CallLogin email password;
                    StoreLogin (access_token d); Navigate (js "/");
                    SetLoading false]
         /\ count is_store_mutation (trace r) = 1%nat
         /\ count is_navigate (trace r) = 1%nat
         /\ error (final r) = None
     | None =>
         error (final r) = Some (js "Login failed, please try again")
         /\ count is_store_mutation (trace r) = 0%nat
         /\ count is_navigate (trace r) = 0%nat
     end.
Proof.
  intros Hok r; subst r. rewrite handleLogin_run, Hok.
  destruct (data env) as [d|]; simpl; repeat split.
Qed.

(** The login scenario of the specification: token "T". *)
Lemma handleLogin_success_witness :
  let r :=
    handleLogin (svc_answering (with_token (Some (js "T"))))
      (js "a@b.com") (js "pw") Auth.init in
  result r = Normal tt
  /\ trace r = [SetLoading true; SetError None;
                CallLogin (js "a@b.com") (js "pw");
                StoreLogin (Some (js "T")); Navigate (js "/");
                SetLoading false]
  /\ error (final r) = None.
Proof.
  pose proof
    (@handleLogin_success (svc_answering (with_token (Some (js "T"))))
       (js "a@b.com") (js "pw") Auth.init (with_token (Some (js "T")))
       eq_refl) as H.
  simpl in H. intros r.
  destruct H as (H1 & H2 & _ & _ & H3).
  exact (conj H1 (conj H2 H3)).
Defined.

(** The login scenario of the specification: [{data: null}]. *)
Example handleLogin_without_data :
  let r :=
    handleLogin (svc_answering without_data) (js "a@b.com") (js "pw")
      Auth.init in
  trace r = [SetLoading true; SetError None;
             CallLogin (js "a@b.com") (js "pw");
             SetError (Some (js "Login failed, please try again"));
             SetLoading false]
  /\ final r = {| loading := false;
                  error := Some (js "Login failed, please try again") |}.
Proof. split; reflexivity. Qed.

(** Registration without data has its own message. *)
Example register_without_data :
  error (final (register (svc_answering without_data) (js "Ada")
                  (js "a@b.com") (js "pw") (js "pw") Auth.init))
  = Some (js "Registering failed, please try again").
Proof. reflexivity. Qed.

(** C8: whatever the gateway does (a response with data, a response
    without, a rejection with an error, a rejection with [null] or
    [undefined] that makes the catch block itself throw), [handleLogin]
    and [register] start by setting [loading] to true, do not set it again
    before the gateway call has settled and been handled, end by setting
    it to false, and settle with [loading] false. *)
Theorem loading_cleared_on_every_path (svc : authService) (s : Auth.state) :
  (forall email password : jsstring,
     let r := handleLogin svc email password s in
     exists middle : list event,
       trace r = [SetLoading true; SetError None; CallLogin email password]
                 ++ middle ++ [SetLoading false]
       /\ count is_set_loading middle = 0%nat
       /\ loading (final r) = false)
  /\ (forall name email password confirmation : jsstring,
        let r := register svc name email password confirmation s in
        exists middle : list event,
          trace r = [SetLoading true; SetError None;
                     CallRegister name email password confirmation]
                    ++ middle ++ [SetLoading false]
          /\ count is_set_loading middle = 0%nat
          /\ loading (final r) = false).
Proof.
  split.
  - intros email password r; subst r. rewrite handleLogin_run.
    destruct (service_login svc email password) as [[[d|]]|[|message]].
    + exists [StoreLogin (access_token d); Navigate (js "/")].
      repeat split.
    + exists [SetError (Some (js "Login failed, please try again"))].
      repeat split.
    + exists [ConsoleLog Nullish]. repeat split.
    + exists [ConsoleLog (ErrorValue message);
              SetError (Some (message_or message (js "Invalid credentials")))].
      repeat split.
  - intros name email password confirmation r; subst r.
    rewrite register_run.
    destruct (service_register svc name email password confirmation)
      as [[[d|]]|[|message]].
    + exists [StoreLogin (access_token d); Navigate (js "/")].
      repeat split.
    + exists [SetError (Some (js "Registering failed, please try again"))].
      repeat split.
    + exists []. repeat split.
    + exists [SetError (Some (message_or message (js "Register failed")))].
      repeat split.
Qed.

(** The exit path that only [finally] covers: a login call rejected with
    [undefined] makes the handler itself reject, with [loading] false. *)
Example handleLogin_undefined_rejection_clears_loading :
  let r := handleLogin svc_rejecting_undefined (js "a@b.com") (js "pw")
             Auth.init in
  result r = Throw cannot_read_message /\ loading (final r) = false.
Proof. split; reflexivity. Qed.

(** A rejection of the login call with a value that is not [null] or
    [undefined] is caught: [handleLogin] completes normally, [error] is
    the value's message when it has a non-empty one and "Invalid
    credentials" otherwise, the session store is not touched, nothing is
    navigated to, and [loading] ends false. *)
Lemma handleLogin_rejection
    (svc : authService) (email password : jsstring) (s : Auth.state)
    (message : option jsstring) :
  service_login svc email password = Throw (ErrorValue message) ->
  let r := handleLogin svc email password s in
  result r = Normal tt
  /\ (forall m : jsstring,
        message = Some m -> m <> [] -> error (final r) = Some m)
  /\ (message = None \/ message = Some [] ->
      error (final r) = Some (js "Invalid credentials"))
  /\ count is_store_mutation (trace r) = 0%nat
  /\ count is_navigate (trace r) = 0%nat
  /\ loading (final r) = false.
Proof.
  intros Hko r; subst r. rewrite handleLogin_run, Hko. simpl.
  unfold message_or, or_else.
  repeat split.
  - intros m Hm Hne. rewrite Hm.
    destruct m as [|c m]; [contradiction | reflexivity].
  - intros [Hm|Hm]; rewrite Hm; reflexivity.
Qed.

(** The login scenario of the specification: "network down". *)
Lemma handleLogin_rejection_witness :
  let r := handleLogin svc_down (js "a@b.com") (js "pw") Auth.init in
  result r = Normal tt
  /\ error (final r) = Some (js "network down")
  /\ loading (final r) = false.
Proof.
  pose proof
    (@handleLogin_rejection svc_down (js "a@b.com") (js "pw") Auth.init
       (Some (js "network down")) eq_refl) as H.
  intros r.
  destruct H as (H1 & H2 & _ & _ & _ & H3).
  refine (conj H1 (conj (H2 (js "network down") eq_refl _) H3)).
  discriminate.
Defined.

(** C9, where the code departs from it: when the login call rejects with
    [undefined] (or [null]), the catch block of [handleLogin] throws on
    reading [err.message]: the handler rejects instead of completing, and
    [error] is left null instead of "Invalid credentials".  The session
    store is not touched and nothing is navigated to. *)
Theorem handleLogin_undefined_rejection_escapes :
  let r := handleLogin svc_rejecting_undefined (js "a@b.com") (js "pw")
             Auth.init in
  result r = Throw cannot_read_message
  /\ result r <> Normal tt
  /\ error (final r) = None
  /\ error (final r) <> Some (js "Invalid credentials")
  /\ trace r = [SetLoading true; SetError None;
                CallLogin (js "a@b.com") (js "pw"); ConsoleLog Nullish;
                SetLoading false]
  /\ count is_store_mutation (trace r) = 0%nat
  /\ count is_navigate (trace r) = 0%nat.
Proof.
  repeat split; discriminate.
Qed.

(** *** Book form *)

Section FormProperties.

Import BookForm.

Variable fd : BookAdd.

Lemma newErrors_title :
  Errors.title (newErrors fd) =
  if negb (truthy (trim (title fd))) || (Js.length (title fd) <? 3)%nat
  then Some (js "Title must be at least 3 characters long.")
  else None.
Proof.
  unfold newErrors.
  destruct (negb (truthy (trim (title fd))) || (Js.length (title fd) <? 3)%nat),
    (negb (truthy (trim (author fd))) || (Js.length (author fd) <? 3)%nat),
    (lt (quantity fd) (Num 1) || isNaN (quantity fd)),
    (cover fd) as [file|];
    try destruct (negb (includes allowedTypes (type file)) || false);
    reflexivity.
Qed.

Lemma newErrors_author :
  Errors.author (newErrors fd) =
  if negb (truthy (trim (author fd))) || (Js.length (author fd) <? 3)%nat
  then Some (js "Author name must be at least 3 characters long.")
  else None.
Proof.
  unfold newErrors.
  destruct (negb (truthy (trim (title fd))) || (Js.length (title fd) <? 3)%nat),
    (negb (truthy (trim (author fd))) || (Js.length (author fd) <? 3)%nat),
    (lt (quantity fd) (Num 1) || isNaN (quantity fd)),
    (cover fd) as [file|];
    try destruct (negb (includes allowedTypes (type file)) || false);
    reflexivity.
Qed.

Lemma newErrors_quantity :
  Errors.quantity (newErrors fd) =
  if lt (quantity fd) (Num 1) || isNaN (quantity fd)
  then Some (js "Quantity must be a positive number.")
  else None.
Proof.
  unfold newErrors.
  destruct (negb (truthy (trim (title fd))) || (Js.length (title fd) <? 3)%nat),
    (negb (truthy (trim (author fd))) || (Js.length (author fd) <? 3)%nat),
    (lt (quantity fd) (Num 1) || isNaN (quantity fd)),
    (cover fd) as [file|];
    try destruct (negb (includes allowedTypes (type file)) || false);
    reflexivity.
Qed.

Lemma newErrors_cover :
  Errors.cover (newErrors fd) =
  match cover fd with
  | None => Some (js "Please upload an image.")
  | Some file =>
      if includes allowedTypes (type file) then None
      else Some (js "Only JPG, PNG, or GIF images are allowed.")
  end.
Proof.
  unfold newErrors.
  destruct (negb (truthy (trim (title fd))) || (Js.length (title fd) <? 3)%nat),
    (negb (truthy (trim (author fd))) || (Js.length (author fd) <? 3)%nat),
    (lt (quantity fd) (Num 1) || isNaN (quantity fd)),
    (cover fd) as [file|];
    try destruct (includes allowedTypes (type file));
    reflexivity.
Qed.

(** [validate] stores the errors it finds and answers whether it found
    none. *)
Lemma validate_run (s : BookForm.state) :
  validate fd s =
  (Normal (List.length (Errors.keys (newErrors fd)) =? 0)%nat,
   {| st_formData := st_formData s; st_preview := st_preview s;
      st_errors := newErrors fd |},
   [SetErrors (newErrors fd)]).
Proof. reflexivity. Qed.

(** What [handleSubmit] does, by what [validate] finds and the way the
    promise of [add] settles. *)
Lemma handleSubmit_run (store : bookStore) (s : BookForm.state) :
  handleSubmit store fd s =
  if (List.length (Errors.keys (newErrors fd)) =? 0)%nat then
    match store_add store (payload fd) with
    | Normal _ =>
        (Normal tt,
         {| st_formData := initial_formData; st_preview := js "";
            st_errors := newErrors fd |},
         [PreventDefault; SetErrors (newErrors fd); Add (payload fd);
          AddResolved; GetAll (current_page store);
          SetFormData initial_formData; SetPreview (js ""); Handle])
    | Throw err =>
        (Throw err,
         {| st_formData := st_formData s; st_preview := st_preview s;
            st_errors := newErrors fd |},
         [PreventDefault; SetErrors (newErrors fd); Add (payload fd)])
    end
  else
    (Normal tt,
     {| st_formData := st_formData s; st_preview := st_preview s;
        st_errors := newErrors fd |},
     [PreventDefault; SetErrors (newErrors fd)]).
Proof.
  unfold handleSubmit, bind, add, getAll, handle, setFormData, setPreview,
    emit, modify, await, ret.
  rewrite validate_run.
  destruct (List.length (Errors.keys (newErrors fd)) =? 0)%nat;
    [|reflexivity].
  cbn [negb].
  change (append (append (append (append [] "title" (Text (title fd)))
            "author" (Text (author fd)))
            "quantity" (Text (toString (quantity fd))))
            "cover" match cover fd with
                    | Some file => Blob file
                    | None => Text (js "null")
                    end)
    with (payload fd).
  destruct (store_add store (payload fd)) as [[]|err]; reflexivity.
Qed.

End FormProperties.

Lemma keys_nil (e : BookForm.Errors.t) :
  BookForm.Errors.keys e = []
  <-> BookForm.Errors.title e = None /\ BookForm.Errors.author e = None
      /\ BookForm.Errors.quantity e = None /\ BookForm.Errors.cover e = None.
Proof.
  destruct e as [[t|] [a|] [q|] [c|]]; unfold BookForm.Errors.keys; simpl;
    split; try discriminate; try tauto;
    intros (H1 & H2 & H3 & H4); discriminate.
Qed.

Lemma keys_length (e : BookForm.Errors.t) :
  (List.length (BookForm.Errors.keys e) =? 0)%nat = true
  <-> BookForm.Errors.keys e = [].
Proof.
  destruct (BookForm.Errors.keys e); simpl; split; congruence.
Qed.

Import BookForm.

Lemma includes_allowedTypes (t : jsstring) :
  includes allowedTypes t = true
  <-> t = js "image/jpeg" \/ t = js "image/png" \/ t = js "image/gif".
Proof.
  unfold includes, allowedTypes. cbn [existsb].
  rewrite !orb_true_iff, !eqb_eq. intuition discriminate.
Qed.

Lemma blank_or_short (t : jsstring) :
  negb (truthy (trim t)) || (Js.length t <? 3)%nat = false
  <-> trim t <> [] /\ (3 <= Js.length t)%nat.
Proof.
  rewrite orb_false_iff, negb_false_iff, Nat.ltb_ge.
  destruct (trim t); simpl; intuition congruence.
Qed.

Lemma lt_one (x : number) : lt x (Num 1) = true <-> below_one x.
Proof.
  destruct x as [|negative|z|m e]; unfold lt, below_one.
  - split; [discriminate | contradiction].
  - reflexivity.
  - apply Z.ltb_lt.
  - rewrite Z.mul_1_l. apply Z.ltb_lt.
Qed.

Lemma not_lt_one (x : number) :
  lt x (Num 1) || isNaN x = false <-> at_least_one x.
Proof.
  destruct x as [|negative|z|m e]; unfold lt, isNaN, at_least_one.
  - split; [discriminate | contradiction].
  - rewrite orb_false_r. reflexivity.
  - rewrite orb_false_r. apply Z.ltb_ge.
  - rewrite orb_false_r, Z.mul_1_l. apply Z.ltb_ge.
Qed.

(** A valid draft, field by field. *)
Lemma valid_draft_fields (fd : BookAdd) :
  valid_draft fd
  <-> (trim (title fd) <> [] /\ (3 <= Js.length (title fd))%nat)
      /\ (trim (author fd) <> [] /\ (3 <= Js.length (author fd))%nat)
      /\ at_least_one (quantity fd)
      /\ (exists file : File,
            cover fd = Some file
            /\ includes allowedTypes (type file) = true).
Proof.
  unfold valid_draft. rewrite keys_nil.
  rewrite newErrors_title, newErrors_author, newErrors_quantity,
    newErrors_cover.
  rewrite <- !blank_or_short.
  destruct (negb (truthy (trim (title fd))) || (Js.length (title fd) <? 3)%nat),
    (negb (truthy (trim (author fd))) || (Js.length (author fd) <? 3)%nat).
  1-3: split; [intros (H1 & H2 & _); discriminate
              | intros (H1 & H2 & _); discriminate].
  pose proof (not_lt_one (quantity fd)) as Hq.
  assert (Hc : match cover fd with
               | Some file =>
                   if includes allowedTypes (type file) then None
                   else Some (js "Only JPG, PNG, or GIF images are allowed.")
               | None => Some (js "Please upload an image.")
               end = None
               <-> exists file : File,
                     cover fd = Some file
                     /\ includes allowedTypes (type file) = true).
  { destruct (cover fd) as [file|].
    - destruct (includes allowedTypes (type file)) eqn:Hin.
      + split; [intros _; exists file; auto | reflexivity].
      + split; [discriminate | intros (f & Hf & H); congruence].
    - split; [discriminate | intros (f & Hf & _); discriminate]. }
  rewrite <- Hq, <- Hc.
  destruct (lt (quantity fd) (Num 1) || isNaN (quantity fd));
    intuition congruence.
Qed.

Lemma valid_draft_no_errors (fd : BookAdd) :
  valid_draft fd -> newErrors fd = Errors.empty.
Proof.
  intros Hvalid. apply keys_nil in Hvalid.
  destruct Hvalid as (H1 & H2 & H3 & H4).
  destruct (newErrors fd); simpl in *; subst; reflexivity.
Qed.

Example dune_is_valid : valid_draft dune.
Proof. reflexivity. Qed.

(** The rule of the title and author fields, for a field value [t] whose
    error [o] is [msg] when [t] is blank or shorter than 3. *)
Lemma blank_or_short_rule (t msg : jsstring) (o : option jsstring) :
  o = (if negb (truthy (trim t)) || (Js.length t <? 3)%nat
       then Some msg else None) ->
  (o = None <-> trim t <> [] /\ (3 <= Js.length t)%nat)
  /\ (o = None \/ o = Some msg)
  /\ ((3 <= Js.length (trim t))%nat -> o = None).
Proof.
  intros ->.
  pose proof (blank_or_short t) as H.
  pose proof (length_trim t) as L.
  destruct (negb (truthy (trim t)) || (Js.length t <? 3)%nat).
  - split; [|split].
    + split; [discriminate | intros Hok; apply H in Hok; discriminate].
    + right; reflexivity.
    + intros H3. exfalso.
      assert (Hok : trim t <> [] /\ (3 <= Js.length t)%nat).
      { split; [|lia]. destruct (trim t); simpl in H3; [lia | discriminate]. }
      apply H in Hok. discriminate.
  - split; [|split]; auto.
    split; [intros _; apply H; reflexivity | reflexivity].
Qed.

(** C2, as stated, fails: the title " a " has trimmed length 1, and
    validation reports no title error for it. *)
Lemma validate_padded_title_accepted :
  ~ StatedForm.trimmed_length_rule padded BookForm.init.
Proof.
  unfold StatedForm.trimmed_length_rule.
  intros [[_ H] _].
  apply H; [vm_compute; lia | reflexivity].
Qed.

(** C2, amended: validation reports no title error exactly when the title
    has a character that is not white space and its untrimmed length is at
    least 3; otherwise the error is "Title must be at least 3 characters
    long.".  So a title whose trimmed length is at least 3 has no error,
    and a blank title or one whose untrimmed length is below 3 has one.
    The same holds of the author, with its own message. *)
Theorem validate_title_author (fd : BookAdd) (s : BookForm.state) :
  let e := reported fd s in
  (Errors.title e = None
   <-> trim (title fd) <> [] /\ (3 <= Js.length (title fd))%nat)
  /\ (Errors.title e = None
      \/ Errors.title e
         = Some (js "Title must be at least 3 characters long."))
  /\ ((3 <= Js.length (trim (title fd)))%nat -> Errors.title e = None)
  /\ (Errors.author e = None
      <-> trim (author fd) <> [] /\ (3 <= Js.length (author fd))%nat)
  /\ (Errors.author e = None
      \/ Errors.author e
         = Some (js "Author name must be at least 3 characters long."))
  /\ ((3 <= Js.length (trim (author fd)))%nat -> Errors.author e = None).
Proof.
  intros e; subst e. unfold reported. rewrite validate_run.
  cbn [final fst snd st_errors].
  pose proof (blank_or_short_rule _ _ (newErrors_title fd)) as (T1 & T2 & T3).
  pose proof (blank_or_short_rule _ _ (newErrors_author fd)) as (A1 & A2 & A3).
  repeat split; solve [apply T1; auto | apply A1; auto | auto].
Qed.

(** The title "Dune" has trimmed length 4 and no error. *)
Lemma validate_title_author_witness :
  Errors.title (reported dune BookForm.init) = None
  /\ Errors.author (reported dune BookForm.init) = None.
Proof.
  pose proof (validate_title_author dune BookForm.init)
    as (_ & _ & Ht & _ & _ & Ha).
  split; [apply Ht | apply Ha]; vm_compute; lia.
Defined.

(** C3, as stated, fails: typing "abc" in the quantity input stores [NaN],
    not an integer that is at least 1. *)
Lemma handleChange_quantity_abc_stores_NaN :
  ~ StatedForm.quantity_floored (js "abc") BookForm.init.
Proof.
  unfold StatedForm.quantity_floored.
  intros (n & H & _). vm_compute in H. discriminate H.
Qed.

Lemma to_double_cases (z : Z) :
  (exists v : Z, to_double z = Num v)
  \/ (exists negative : bool, to_double z = Infinity negative).
Proof.
  unfold to_double.
  destruct (Z.abs z <? 2 ^ 53)%Z; [left; eexists; reflexivity|].
  match goal with
  | |- context [if ?c then Infinity _ else _] => destruct c
  end; [right | left]; eexists; reflexivity.
Qed.

(** [parseInt] gives [NaN] or the double of an integer. *)
Lemma parseInt_cases (value : jsstring) :
  parseInt value = NaN \/ exists z : Z, parseInt value = to_double z.
Proof.
  unfold parseInt.
  destruct (match trimStart value with
            | [] => (1%Z, trimStart value)
            | c :: r =>
                if (c =? 45)%N then ((-1)%Z, r)
                else if (c =? 43)%N then (1%Z, r)
                else (1%Z, trimStart value)
            end) as [sign s2].
  destruct (match s2 with
            | z :: x :: r =>
                if ((z =? 48) && ((x =? 120) || (x =? 88)))%N
                then (16%Z, r) else (10%Z, s2)
            | _ => (10%Z, s2)
            end) as [R s3].
  destruct (digits_prefix R s3); [left | right; eexists]; reflexivity.
Qed.

(** C3, amended: a change of the quantity input stores
    [Math.max(1, parseInt(value))] and touches no other field.  When
    [parseInt] reads no integer the stored quantity is [NaN]: it is not
    clamped, and a validation of the new draft reports "Quantity must be a
    positive number.".  Otherwise [parseInt] gives the double of the
    integer read and the larger of it and 1 is stored: [max 1 n] when that
    double is the integer [n], positive infinity when the digits overflow
    a double (1 for a negative overflow); a validation of the new draft
    then reports no quantity error.  In no case is the stored quantity
    below 1, and it is never a fraction. *)
Theorem handleChange_quantity (value : jsstring) (s : BookForm.state) :
  let s' := final (onFieldChange name_quantity value s) in
  let q := quantity (st_formData s') in
  lt q (Num 1) = false
  /\ match parseInt value with
     | NaN =>
         q = NaN
         /\ Errors.quantity (newErrors (st_formData s'))
            = Some (js "Quantity must be a positive number.")
     | Infinity negative =>
         q = (if negative then Num 1 else Infinity false)
         /\ Errors.quantity (newErrors (st_formData s')) = None
     | Num n =>
         q = Num (Z.max 1 n) /\ (1 <= Z.max 1 n)%Z
         /\ Errors.quantity (newErrors (st_formData s')) = None
     | Frac _ _ => False
     end
  /\ title (st_formData s') = title (st_formData s)
  /\ author (st_formData s') = author (st_formData s)
  /\ cover (st_formData s') = cover (st_formData s).
Proof.
  intros s' q; subst q s'.
  unfold onFieldChange, handleChange, bind, setFormData, ret.
  rewrite validate_run. cbn [final fst snd st_formData quantity].
  rewrite newErrors_quantity. cbn [quantity title author cover].
  assert (Hfrac : forall m e, parseInt value <> Frac m e).
  { intros m e H.
    destruct (parseInt_cases value) as [Hn|[z Hz]]; [congruence|].
    rewrite Hz in H.
    destruct (to_double_cases z) as [[v Hv]|[b Hb]]; congruence. }
  destruct (parseInt value) as [|[|]|n|m e].
  - repeat split.
  - repeat split.
  - repeat split.
  - unfold Math_max, isNaN, lt. cbn [orb].
    destruct (Z.ltb_spec 1 n) as [H1|H1].
    + rewrite Z.max_r by lia.
      destruct (Z.ltb_spec n 1); [lia|]. repeat split; lia.
    + rewrite Z.max_l by lia. repeat split. lia.
  - exfalso. apply (Hfrac m e). reflexivity.
Qed.

(** Past 2^53 the quantity stored is the double the digits round to. *)
Example handleChange_quantity_rounds :
  quantity (st_formData (final (onFieldChange name_quantity
                                  (js "9007199254740993") BookForm.init)))
  = Num 9007199254740992.
Proof. vm_compute. reflexivity. Qed.

(** Four hundred nines overflow a double: positive infinity is stored,
    and the draft passes the quantity check. *)
Example handleChange_quantity_overflows :
  let s' := final (onFieldChange name_quantity (repeat 57%N 400)
                     BookForm.init) in
  quantity (st_formData s') = Infinity false
  /\ Errors.quantity (newErrors (st_formData s')) = None.
Proof. vm_compute. split; reflexivity. Qed.

(** The scenario of the specification: "-5" stores 1. *)
Example handleChange_quantity_minus5 :
  quantity (st_formData (final (onFieldChange name_quantity (js "-5")
                                  BookForm.init)))
  = Num 1.
Proof. reflexivity. Qed.

(** An emptied quantity input stores [NaN] as well. *)
Example handleChange_quantity_empty :
  quantity (st_formData (final (onFieldChange name_quantity (js "")
                                  BookForm.init)))
  = NaN.
Proof. reflexivity. Qed.

(** C5: for a valid draft, when the promise of [add] resolves, [submit]
    calls [add] exactly once with the draft's payload, calls
    [getAll(current_page)] exactly once and only after [add] has resolved,
    then resets the draft to its initial value, clears the preview and
    gives the close signal. *)
Theorem submit_valid_draft (store : bookStore) (s : BookForm.state) :
  valid_draft (st_formData s) ->
  store_add store (payload (st_formData s)) = Normal tt ->
  let r := submit store s in
  result r = Normal tt
  /\ trace r = [PreventDefault; SetErrors Errors.empty;
                Add (payload (st_formData s)); AddResolved;
                GetAll (current_page store);
                SetFormData {| title := js ""; author := js "";
                               cover := None; quantity := Num 1 |};
                SetPreview (js ""); Handle]
  /\ count is_add (trace r) = 1%nat
  /\ count is_getAll (trace r) = 1%nat
  /\ st_formData (final r)
     = {| title := js ""; author := js ""; cover := None;
          quantity := Num 1 |}
  /\ st_preview (final r) = js "".
Proof.
  intros Hvalid Hadd r; subst r. unfold submit.
  rewrite handleSubmit_run, Hadd.
  rewrite (valid_draft_no_errors Hvalid). simpl. repeat split.
Qed.

Lemma submit_valid_draft_witness :
  let s := {| st_formData := dune; st_preview := js "data:,";
              st_errors := Errors.empty |} in
  let r := submit store_up s in
  count is_add (trace r) = 1%nat
  /\ count is_getAll (trace r) = 1%nat
  /\ st_formData (final r) = initial_formData
  /\ st_preview (final r) = js "".
Proof.
  intros s.
  pose proof (@submit_valid_draft store_up s eq_refl eq_refl)
    as (_ & _ & H1 & H2 & H3 & H4).
  exact (conj H1 (conj H2 (conj H3 H4))).
Defined.

(** C6: a draft whose title or author has fewer than 3 characters, whose
    quantity is below 1 or not a number, or whose cover is absent or of a
    type that is not allowed, does not pass: [validate] answers false with
    a non-empty error set, and [submit] calls neither [add] nor [getAll];
    it leaves the errors in the state and the draft and preview as they
    were. *)
Theorem submit_invalid_draft (store : bookStore) (s : BookForm.state) :
  let fd := st_formData s in
  (Js.length (title fd) < 3)%nat
  \/ (Js.length (author fd) < 3)%nat
  \/ below_one (quantity fd)
  \/ quantity fd = NaN
  \/ cover fd = None
  \/ (exists file : File,
        cover fd = Some file
        /\ type file <> js "image/jpeg"
        /\ type file <> js "image/png"
        /\ type file <> js "image/gif") ->
  let r := submit store s in
  result (validate fd s) = Normal false
  /\ Errors.keys (reported fd s) <> []
  /\ result r = Normal tt
  /\ trace r = [PreventDefault; SetErrors (reported fd s)]
  /\ count is_network (trace r) = 0%nat
  /\ st_errors (final r) = reported fd s
  /\ st_formData (final r) = st_formData s
  /\ st_preview (final r) = st_preview s.
Proof.
  intros fd Hbad r; subst r fd. unfold submit, reported.
  rewrite handleSubmit_run, validate_run.
  cbn [result final fst snd st_errors].
  assert (Hinvalid : ~ valid_draft (st_formData s)).
  { rewrite valid_draft_fields.
    intros ((_ & Ht) & (_ & Ha) & Hq & (file & Hc & Hin)).
    apply includes_allowedTypes in Hin.
    destruct Hbad as [H|[H|[H|[H|[H|(f & H & H1 & H2 & H3)]]]]].
    - lia.
    - lia.
    - destruct (quantity (st_formData s)) as [|negative|z|m e];
        simpl in H, Hq; try contradiction; try congruence; lia.
    - rewrite H in Hq. exact Hq.
    - congruence.
    - assert (f = file) by congruence. subst f. tauto. }
  unfold valid_draft in Hinvalid.
  destruct (Errors.keys (newErrors (st_formData s))) as [|k ks] eqn:Hk;
    [contradiction|].
  simpl. repeat split. discriminate.
Qed.

Lemma submit_invalid_draft_witness :
  let s := {| st_formData :=
                {| title := js "ab"; author := js "Herbert";
                   cover := Some pdf_file; quantity := NaN |};
              st_preview := js "data:,"; st_errors := Errors.empty |} in
  count is_network (trace (submit store_up s)) = 0%nat
  /\ Errors.keys (st_errors (final (submit store_up s)))
     = [js "title"; js "quantity"; js "cover"].
Proof.
  intros s.
  assert (Hbad : (Js.length (title (st_formData s)) < 3)%nat)
    by (vm_compute; lia).
  pose proof (@submit_invalid_draft store_up s (or_introl Hbad))
    as (_ & _ & _ & _ & H1 & H2 & _).
  split; [exact H1 | rewrite H2; reflexivity].
Defined.

Lemma not_allowed (t : jsstring) :
  includes allowedTypes t = false
  <-> t <> js "image/jpeg" /\ t <> js "image/png" /\ t <> js "image/gif".
Proof.
  pose proof (includes_allowedTypes t) as H.
  destruct (includes allowedTypes t).
  - split; [discriminate|]. intros (H1 & H2 & H3).
    destruct H as [H _]. destruct (H eq_refl) as [E|[E|E]]; contradiction.
  - split; [|reflexivity]. intros _.
    repeat split; intros E; destruct H as [_ H];
      discriminate H; auto.
Qed.

(** C7: the cover error of a validation pass is "Please upload an
    image." exactly when the draft has no cover, and "Only JPG, PNG, or
    GIF images are allowed." exactly when it has a cover whose type is
    none of image/jpeg, image/png, image/gif; a cover of one of these
    types has no error.  The two errors exclude each other, and a cover
    of a wrong type gets the type error and not the other one. *)
Theorem validate_cover (fd : BookAdd) (s : BookForm.state) :
  let e := Errors.cover (reported fd s) in
  (e = Some (js "Please upload an image.") <-> cover fd = None)
  /\ (e = Some (js "Only JPG, PNG, or GIF images are allowed.")
      <-> exists file : File,
            cover fd = Some file
            /\ type file <> js "image/jpeg"
            /\ type file <> js "image/png"
            /\ type file <> js "image/gif")
  /\ (e = None
      <-> exists file : File,
            cover fd = Some file
            /\ (type file = js "image/jpeg"
                \/ type file = js "image/png"
                \/ type file = js "image/gif")).
Proof.
  intros e; subst e. unfold reported. rewrite validate_run.
  cbn [final fst snd st_errors]. rewrite newErrors_cover.
  destruct (cover fd) as [file|].
  - pose proof (not_allowed (type file)) as Hno.
    pose proof (includes_allowedTypes (type file)) as Hyes.
    destruct (includes allowedTypes (type file)).
    + split; [split; discriminate|]. split.
      * split; [discriminate|]. intros (f & Hf & H).
        injection Hf as <-. apply Hno in H. discriminate H.
      * split; [|reflexivity]. intros _. exists file. split; [reflexivity|].
        apply Hyes. reflexivity.
    + split; [split; discriminate|]. split.
      * split; [|reflexivity]. intros _. exists file. split; [reflexivity|].
        apply Hno. reflexivity.
      * split; [discriminate|]. intros (f & Hf & H).
        injection Hf as <-. apply Hyes in H. discriminate H.
  - split; [split; reflexivity|]. split.
    + split; [discriminate | intros (f & Hf & _); discriminate Hf].
    + split; [discriminate | intros (f & Hf & _); discriminate Hf].
Qed.

Example validate_cover_pdf :
  Errors.cover
    (reported {| title := js "Dune"; author := js "Herbert";
                 cover := Some pdf_file; quantity := Num 2 |} BookForm.init)
  = Some (js "Only JPG, PNG, or GIF images are allowed.").
Proof. reflexivity. Qed.

(** The form [typed_in] holds a valid draft under an author error: the
    validation pass of the last change read the draft of the render
    before it, whose author was still empty. *)
Example typed_in_state :
  st_formData typed_in
  = {| title := js "Dune"; author := js "Herbert"; cover := Some png_file;
       quantity := Num 1 |}
  /\ Errors.author (st_errors typed_in)
     = Some (js "Author name must be at least 3 characters long.").
Proof. split; reflexivity. Qed.

(** C10, as stated, fails: submitting the valid draft of [typed_in] to a
    store whose [add] rejects does not leave the field errors as they
    were; the validation pass that precedes [add] has replaced them. *)
Lemma submit_rejected_add_replaces_errors :
  valid_draft (st_formData typed_in)
  /\ store_add store_down (payload (st_formData typed_in))
     = Throw network_down
  /\ ~ StatedForm.add_rejection_leaves_state store_down typed_in
         network_down.
Proof.
  split; [reflexivity|]. split; [reflexivity|].
  unfold StatedForm.add_rejection_leaves_state.
  intros (_ & _ & _ & H & _).
  vm_compute in H. discriminate H.
Qed.

(** C10, amended: for a valid draft, when the promise of [add] rejects,
    [submit] has called [add] once and does not call [getAll]; the draft
    and the preview are left as they were (no reset), the field errors
    are the empty set the validation pass has just stored, the close
    signal is not given, and the rejection is that of [submit]. *)
Theorem submit_rejected_add
    (store : bookStore) (s : BookForm.state) (err : failure) :
  valid_draft (st_formData s) ->
  store_add store (payload (st_formData s)) = Throw err ->
  let r := submit store s in
  result r = Throw err
  /\ trace r = [PreventDefault; SetErrors Errors.empty;
                Add (payload (st_formData s))]
  /\ count is_add (trace r) = 1%nat
  /\ count is_getAll (trace r) = 0%nat
  /\ count is_handle (trace r) = 0%nat
  /\ st_formData (final r) = st_formData s
  /\ st_preview (final r) = st_preview s
  /\ st_errors (final r) = Errors.empty.
Proof.
  intros Hvalid Hadd r; subst r. unfold submit.
  rewrite handleSubmit_run, Hadd.
  rewrite (valid_draft_no_errors Hvalid). simpl. repeat split.
Qed.

Lemma submit_rejected_add_witness :
  let r := submit store_down typed_in in
  result r = Throw network_down
  /\ count is_getAll (trace r) = 0%nat
  /\ st_formData (final r) = st_formData typed_in
  /\ st_errors (final r) = Errors.empty.
Proof.
  pose proof (@submit_rejected_add store_down typed_in network_down
                eq_refl eq_refl)
    as (H1 & _ & _ & H2 & _ & H3 & _ & H4).
  exact (conj H1 (conj H2 (conj H3 H4))).
Defined.

(** *** More on the auth controller *)

(** X1: on a successful registration response [register] branches on the
    envelope's [data] like [handleLogin]: with [data] present the session
    store's [login] gets [data]'s [access_token] once, home is navigated
    to and [error] is null, whatever it was before; with [data] absent
    [error] is "Registering failed, please try again" and neither the
    store nor the location is touched. *)
Theorem register_success
    (svc : authService) (name email password confirmation : jsstring)
    (s : Auth.state) (env : envelope) :
  service_register svc name email password confirmation = Normal env ->
  let r := register svc name email password confirmation s in
  result r = Normal tt
  /\ loading (final r) = false
  /\ match data env with
     | Some d =>
         trace r = [SetLoading true; SetError None;
                    CallRegister name email password confirmation;
                    StoreLogin (access_token d); Navigate (js "/");
                    SetLoading false]
         /\ error (final r) = None
     | None =>
         error (final r) = Some (js "Registering failed, please try again")
         /\ count is_store_mutation (trace r) = 0%nat
         /\ count is_navigate (trace r) = 0%nat
     end.
Proof.
  intros Hok r; subst r. rewrite register_run, Hok.
  destruct (data env) as [d|]; simpl; repeat split.
Qed.

Lemma register_success_witness :
  let r :=
    register (svc_answering (with_token (Some (js "T")))) (js "Ada")
      (js "a@b.com") (js "pw") (js "pw")
      {| loading := false; error := Some (js "Register failed") |} in
  result r = Normal tt /\ error (final r) = None.
Proof.
  pose proof
    (@register_success (svc_answering (with_token (Some (js "T"))))
       (js "Ada") (js "a@b.com") (js "pw") (js "pw")
       {| loading := false; error := Some (js "Register failed") |}
       (with_token (Some (js "T"))) eq_refl) as H.
  simpl in H. intros r.
  destruct H as (H1 & _ & _ & H2).
  exact (conj H1 H2).
Defined.

(** X2: a registration call rejected with a value that is not [null] or
    [undefined] is caught by [register], which completes normally with
    [error] the value's message when it has a non-empty one and "Register
    failed" otherwise.  Rejected with [null] or [undefined], the catch
    block throws on reading the message: [register] itself rejects and
    [error] stays null.  Either way the session store is not touched,
    nothing is navigated to, nothing is logged to the console, and
    [loading] ends false. *)
Theorem register_rejection
    (svc : authService) (name email password confirmation : jsstring)
    (s : Auth.state) (err : failure) :
  service_register svc name email password confirmation = Throw err ->
  let r := register svc name email password confirmation s in
  count is_store_mutation (trace r) = 0%nat
  /\ count is_navigate (trace r) = 0%nat
  /\ count (fun e => match e with ConsoleLog _ => true | _ => false end)
       (trace r) = 0%nat
  /\ loading (final r) = false
  /\ match err with
     | ErrorValue message =>
         result r = Normal tt
         /\ (forall m : jsstring,
               message = Some m -> m <> [] -> error (final r) = Some m)
         /\ (message = None \/ message = Some [] ->
             error (final r) = Some (js "Register failed"))
     | Nullish =>
         result r = Throw cannot_read_message
         /\ error (final r) = None
     end.
Proof.
  intros Hko r; subst r. rewrite register_run, Hko.
  destruct err as [|message]; simpl; repeat split.
  - intros m Hm Hne. rewrite Hm. unfold message_or, or_else.
    destruct m as [|c m]; [contradiction | reflexivity].
  - intros [Hm|Hm]; rewrite Hm; reflexivity.
Qed.

Lemma register_rejection_witness :
  let r :=
    register svc_refusing (js "Ada") (js "a@b.com") (js "pw") (js "pw")
      Auth.init in
  result r = Normal tt
  /\ error (final r) = Some (js "Register failed").
Proof.
  pose proof
    (@register_rejection svc_refusing (js "Ada") (js "a@b.com") (js "pw")
       (js "pw") Auth.init (ErrorValue None) eq_refl) as H.
  intros r.
  destruct H as (_ & _ & _ & _ & H1 & _ & H2).
  exact (conj H1 (H2 (or_introl eq_refl))).
Defined.

(** X3: in [handleLogin] and in [register], on every outcome of the
    gateway call: the gateway is called exactly once (no retry); the
    session store's [login] is called at most once and exactly as often
    as home is navigated to, which is the only navigation; the store's
    [logout] is never called; and the store's [login] was called exactly
    when the handler completes normally with [error] null. *)
Theorem login_and_navigation_go_together
    (svc : authService) (s : Auth.state) :
  (forall email password : jsstring,
     let r := handleLogin svc email password s in
     let logins := count is_store_login (trace r) in
     count (fun e => match e with CallLogin _ _ => true | _ => false end)
       (trace r) = 1%nat
     /\ (logins <= 1)%nat
     /\ count (is_navigate_to (js "/")) (trace r) = logins
     /\ count is_navigate (trace r) = logins
     /\ count is_store_logout (trace r) = 0%nat
     /\ (logins = 1%nat
         <-> result r = Normal tt /\ error (final r) = None))
  /\ (forall name email password confirmation : jsstring,
        let r := register svc name email password confirmation s in
        let logins := count is_store_login (trace r) in
        count (fun e => match e with
                        | CallRegister _ _ _ _ => true
                        | _ => false
                        end) (trace r) = 1%nat
        /\ (logins <= 1)%nat
        /\ count (is_navigate_to (js "/")) (trace r) = logins
        /\ count is_navigate (trace r) = logins
        /\ count is_store_logout (trace r) = 0%nat
        /\ (logins = 1%nat
            <-> result r = Normal tt /\ error (final r) = None)).
Proof.
  split.
  - intros email password r logins; subst logins r.
    rewrite handleLogin_run.
    destruct (service_login svc email password) as [[[d|]]|[|message]];
      unfold count; simpl;
      repeat split; try lia; try discriminate;
      try (intros [H1 H2]; discriminate).
  - intros name email password confirmation r logins; subst logins r.
    rewrite register_run.
    destruct (service_register svc name email password confirmation)
      as [[[d|]]|[|message]]; unfold count; simpl;
      repeat split; try lia; try discriminate;
      try (intros [H1 H2]; discriminate).
Qed.

(** X4: between two runs of its handlers the controller is never left
    loading: from the initial state, after any sequence of logins,
    registrations and logouts, each against any gateway and whether the
    handler completes or rejects, [loading] is false. *)
Theorem auth_at_rest_not_loading (s : Auth.state) :
  auth_reachable s -> loading s = false.
Proof.
  induction 1 as [|s svc email password _ _
                  |s svc name email password confirmation _ _
                  |s svc _ IH].
  - reflexivity.
  - rewrite handleLogin_run.
    destruct (service_login svc email password) as [[[d|]]|[|message]];
      reflexivity.
  - rewrite register_run.
    destruct (service_register svc name email password confirmation)
      as [[[d|]]|[|message]]; reflexivity.
  - rewrite handleLogout_run.
    destruct (service_logout svc) as [[]|err]; exact IH.
Qed.

(** A login and a registration that both reject with [undefined], so that
    both handlers reject, then a logout that rejects too. *)
Lemma auth_at_rest_not_loading_witness :
  loading
    (final (handleLogout svc_rejecting_undefined
       (final (register svc_rejecting_undefined (js "Ada") (js "a@b.com")
                 (js "pw") (js "pw")
          (final (handleLogin svc_rejecting_undefined (js "a@b.com")
                    (js "pw") Auth.init))))))
  = false.
Proof.
  apply auth_at_rest_not_loading.
  apply reach_logout, reach_register, reach_login, reach_idle.
Defined.

(** *** More on the book form *)

(** X5: a validation pass reports the quantity error "Quantity must be a
    positive number." exactly when the draft's quantity is [NaN], negative
    infinity or a finite number below 1, and no quantity error exactly
    when it is positive infinity or a finite number that is at least 1. *)
Theorem validate_quantity (fd : BookAdd) (s : BookForm.state) :
  let e := Errors.quantity (reported fd s) in
  (e = Some (js "Quantity must be a positive number.")
   <-> quantity fd = NaN \/ below_one (quantity fd))
  /\ (e = None <-> at_least_one (quantity fd)).
Proof.
  intros e; subst e. unfold reported. rewrite validate_run.
  cbn [final fst snd st_errors]. rewrite newErrors_quantity.
  pose proof (lt_one (quantity fd)) as Hlt.
  pose proof (not_lt_one (quantity fd)) as Hge.
  destruct (lt (quantity fd) (Num 1)) eqn:E1.
  - cbn [orb]. split; split; try discriminate.
    + intros _. right. apply Hlt. reflexivity.
    + reflexivity.
    + intros H. apply Hge in H. discriminate H.
  - cbn [orb] in *. destruct (isNaN (quantity fd)) eqn:E2.
    + split; split; try discriminate; try reflexivity.
      * intros _. left. destruct (quantity fd); try discriminate E2.
        reflexivity.
      * intros H. apply Hge in H. discriminate H.
    + split; split; try discriminate; try reflexivity.
      * intros [H|H]; [rewrite H in E2; discriminate E2|].
        apply Hlt in H. discriminate H.
      * intros _. apply Hge. reflexivity.
Qed.

(** X6: [validate] never throws, leaves the draft and the preview alone,
    and answers true exactly when the title and the author each have a
    character that is not white space and at least 3 characters, the
    quantity is positive infinity or a finite number that is at least 1,
    and there is a cover of type image/jpeg, image/png or image/gif. *)
Theorem validate_accepts_iff (fd : BookAdd) (s : BookForm.state) :
  let r := validate fd s in
  (exists b : bool, result r = Normal b)
  /\ st_formData (final r) = st_formData s
  /\ st_preview (final r) = st_preview s
  /\ (result r = Normal true
      <-> (trim (title fd) <> [] /\ (3 <= Js.length (title fd))%nat)
          /\ (trim (author fd) <> [] /\ (3 <= Js.length (author fd))%nat)
          /\ at_least_one (quantity fd)
          /\ (exists file : File,
                cover fd = Some file
                /\ (type file = js "image/jpeg"
                    \/ type file = js "image/png"
                    \/ type file = js "image/gif"))).
Proof.
  intros r; subst r. rewrite validate_run. cbn [result final fst snd].
  split; [eexists; reflexivity|]. split; [reflexivity|].
  split; [reflexivity|].
  pose proof (valid_draft_fields fd) as Hv. unfold valid_draft in Hv.
  pose proof (keys_length (newErrors fd)) as Hk.
  assert (Hin : (exists file : File,
                   cover fd = Some file
                   /\ includes allowedTypes (type file) = true)
                <-> (exists file : File,
                       cover fd = Some file
                       /\ (type file = js "image/jpeg"
                           \/ type file = js "image/png"
                           \/ type file = js "image/gif"))).
  { split; intros (file & Hc & H); exists file; split; auto;
      apply includes_allowedTypes; exact H. }
  rewrite <- Hin, <- Hv, <- Hk.
  split; [intros H; injection H; auto | intros ->; reflexivity].
Qed.

(** X7: a field change stores the typed text as it is for the title and
    the author (no trimming), changes no other field of the draft and
    not the preview, and sends nothing.  The validation pass it triggers
    reads the draft of the render the handler belongs to: the errors it
    leaves are those of the draft before the change, whatever was typed. *)
Theorem handleChange_validates_previous_draft
    (name : input_name) (value : jsstring) (s : BookForm.state) :
  let r := onFieldChange name value s in
  let fd := st_formData s in
  let fd' := st_formData (final r) in
  result r = Normal tt
  /\ st_errors (final r) = newErrors fd
  /\ st_preview (final r) = st_preview s
  /\ trace r = [SetFormData fd'; SetErrors (newErrors fd)]
  /\ cover fd' = cover fd
  /\ match name with
     | name_title =>
         title fd' = value /\ author fd' = author fd
         /\ quantity fd' = quantity fd
     | name_author =>
         author fd' = value /\ title fd' = title fd
         /\ quantity fd' = quantity fd
     | name_quantity =>
         title fd' = title fd /\ author fd' = author fd
     end.
Proof.
  intros r fd fd'; subst fd' fd r.
  unfold onFieldChange, handleChange, bind, setFormData, ret.
  rewrite validate_run.
  destruct name; simpl; repeat split.
Qed.

(** X8: a cover change with no file list, or with an empty one, does
    nothing at all: no state is set and no reader result is used. *)
Theorem handleImageChange_without_file
    (reader_result : jsstring) (s : BookForm.state) :
  onCoverChange None reader_result s = (Normal tt, s, [])
  /\ onCoverChange (Some []) reader_result s = (Normal tt, s, []).
Proof. split; reflexivity. Qed.

Lemma onCoverChange_run
    (file0 : File) (others : list File) (reader_result : jsstring)
    (s : BookForm.state) :
  onCoverChange (Some (file0 :: others)) reader_result s =
  let fd' := {| title := title (st_formData s);
                author := author (st_formData s);
                cover := Some file0;
                quantity := quantity (st_formData s) |} in
  (Normal tt,
   {| st_formData := fd'; st_preview := reader_result;
      st_errors := st_errors s |},
   [SetPreview reader_result; SetFormData fd']).
Proof. reflexivity. Qed.

(** X9: a cover change with files takes the first file only: the draft's
    cover becomes that file and the preview the reader's result, the
    other fields are kept, and no validation pass is run, so the errors
    on display stay as they were.  A validation of the new draft has no
    cover error exactly when the file's type is image/jpeg, image/png or
    image/gif. *)
Theorem handleImageChange_with_file
    (file0 : File) (others : list File) (reader_result : jsstring)
    (s : BookForm.state) :
  let r := onCoverChange (Some (file0 :: others)) reader_result s in
  let fd := st_formData s in
  let fd' := st_formData (final r) in
  result r = Normal tt
  /\ trace r = [SetPreview reader_result; SetFormData fd']
  /\ cover fd' = Some file0
  /\ st_preview (final r) = reader_result
  /\ title fd' = title fd /\ author fd' = author fd
  /\ quantity fd' = quantity fd
  /\ st_errors (final r) = st_errors s
  /\ (Errors.cover (newErrors fd') = None
      <-> type file0 = js "image/jpeg" \/ type file0 = js "image/png"
          \/ type file0 = js "image/gif").
Proof.
  intros r fd fd'; subst fd' fd r.
  rewrite onCoverChange_run.
  cbn [result final trace fst snd st_formData st_preview st_errors
       title author cover quantity].
  repeat split.
  - rewrite newErrors_cover. cbn [cover].
    pose proof (includes_allowedTypes (type file0)) as Hin.
    destruct (includes allowedTypes (type file0)); [|discriminate].
    intros _. apply Hin. reflexivity.
  - rewrite newErrors_cover. cbn [cover].
    intros H. apply includes_allowedTypes in H. rewrite H. reflexivity.
Qed.

(** What the quantity coercion can store. *)
Lemma quantity_coercion_range (value : jsstring) :
  let q := Math_max (Num 1) (parseInt value) in
  q = NaN \/ q = Infinity false
  \/ exists n : Z, q = Num n /\ (1 <= n)%Z.
Proof.
  intros q; subst q.
  destruct (parseInt_cases value) as [Hn|[z Hz]].
  - rewrite Hn. left. reflexivity.
  - rewrite Hz.
    destruct (to_double_cases z) as [[v Hv]|[[|] Hb]].
    + rewrite Hv. right. right. unfold Math_max, isNaN, lt. cbn [orb].
      destruct (Z.ltb_spec 1 v).
      * exists v. split; [reflexivity | lia].
      * exists 1%Z. split; [reflexivity | lia].
    + rewrite Hb. right. right. exists 1%Z. split; [reflexivity | lia].
    + rewrite Hb. right. left. reflexivity.
Qed.

(** X10: in every state the form can reach from its mounted state (by
    field changes, cover changes and submits, against any store), the
    draft's quantity is [NaN], positive infinity or an integer that is at
    least 1 (never a fraction, never below 1), and the preview is empty
    whenever the draft has no cover. *)
Theorem form_invariants (s : BookForm.state) :
  form_reachable s ->
  (quantity (st_formData s) = NaN
   \/ quantity (st_formData s) = Infinity false
   \/ exists n : Z, quantity (st_formData s) = Num n /\ (1 <= n)%Z)
  /\ (cover (st_formData s) = None -> st_preview s = js "").
Proof.
  induction 1 as [|s name value _ [IHq IHc]
                  |s files reader_result _ [IHq IHc]
                  |s store _ [IHq IHc]].
  - split; [right; right; exists 1%Z; split; [reflexivity | lia]
           | reflexivity].
  - unfold onFieldChange, handleChange, bind, setFormData, ret.
    rewrite validate_run.
    destruct name; cbn [final fst snd st_formData st_preview quantity cover];
      try (split; assumption).
    split; [|assumption].
    apply quantity_coercion_range.
  - destruct files as [[|file0 others]|]; try (split; assumption).
    rewrite onCoverChange_run.
    cbn [final fst snd st_formData st_preview quantity cover].
    split; [assumption | discriminate].
  - unfold submit. rewrite handleSubmit_run.
    destruct (List.length (Errors.keys (newErrors (st_formData s))) =? 0)%nat;
      [|split; assumption].
    destruct (store_add store (payload (st_formData s))) as [[]|err];
      [|split; assumption].
    split; [right; right; exists 1%Z; split; [reflexivity | lia]
           | reflexivity].
Qed.

(** Four hundred nines typed into the mounted form: the quantity is
    positive infinity. *)
Lemma form_invariants_witness :
  let s := final (onFieldChange name_quantity (repeat 57%N 400)
                    BookForm.init) in
  quantity (st_formData s) = Infinity false
  /\ (cover (st_formData s) = None -> st_preview s = js "").
Proof.
  intros s.
  destruct (@form_invariants s (reach_field_change name_quantity
                                  (repeat 57%N 400) reach_mounted))
    as [_ Hc].
  split; [vm_compute; reflexivity | exact Hc].
Defined.

(** X11: a submit of a valid draft whose [add] resolves leaves the form
    exactly as it was mounted (initial draft, no preview, no errors), so a
    second submit right after it, against whatever store, is stopped by
    validation and sends nothing. *)
Theorem submit_success_returns_to_mounted_form
    (store store' : bookStore) (s : BookForm.state) :
  valid_draft (st_formData s) ->
  store_add store (payload (st_formData s)) = Normal tt ->
  let s' := final (submit store s) in
  s' = BookForm.init
  /\ result (submit store' s') = Normal tt
  /\ count is_network (trace (submit store' s')) = 0%nat
  /\ count is_handle (trace (submit store' s')) = 0%nat
  /\ Errors.keys (st_errors (final (submit store' s')))
     = [js "title"; js "author"; js "cover"].
Proof.
  intros Hvalid Hadd s'.
  assert (Hs : s' = BookForm.init).
  { subst s'. unfold submit. rewrite handleSubmit_run, Hadd.
    rewrite (valid_draft_no_errors Hvalid). reflexivity. }
  rewrite Hs. unfold submit. rewrite handleSubmit_run.
  repeat split.
Qed.

Lemma submit_success_returns_to_mounted_form_witness :
  let s := {| st_formData := dune; st_preview := js "data:,";
              st_errors := Errors.empty |} in
  final (submit store_up s) = BookForm.init
  /\ count is_network (trace (submit store_up (final (submit store_up s))))
     = 0%nat.
Proof.
  intros s.
  pose proof (@submit_success_returns_to_mounted_form store_up store_up s
                eq_refl eq_refl) as (H1 & _ & H2 & _).
  exact (conj H1 H2).
Defined.

(** X12: a submit whose [add] rejects can be retried as it is: the draft
    is still there, and a second submit, against a store whose [add]
    resolves, sends the same payload and then runs to the end (refresh of
    the current page, reset, close signal). *)
Theorem submit_retry_after_rejection
    (store store' : bookStore) (s : BookForm.state) (err : failure) :
  valid_draft (st_formData s) ->
  store_add store (payload (st_formData s)) = Throw err ->
  store_add store' (payload (st_formData s)) = Normal tt ->
  let r := submit store' (final (submit store s)) in
  result r = Normal tt
  /\ trace r = [PreventDefault; SetErrors Errors.empty;
                Add (payload (st_formData s)); AddResolved;
                GetAll (current_page store');
                SetFormData initial_formData; SetPreview (js ""); Handle]
  /\ final r = BookForm.init.
Proof.
  intros Hvalid Hko Hok r; subst r.
  assert (H1 : final (submit store s)
               = {| st_formData := st_formData s; st_preview := st_preview s;
                    st_errors := Errors.empty |}).
  { unfold submit. rewrite handleSubmit_run, Hko.
    rewrite (valid_draft_no_errors Hvalid). reflexivity. }
  rewrite H1. unfold submit. cbn [st_formData].
  rewrite handleSubmit_run, Hok.
  rewrite (valid_draft_no_errors Hvalid). repeat split.
Qed.

Lemma submit_retry_after_rejection_witness :
  let r := submit store_up (final (submit store_down typed_in)) in
  result r = Normal tt /\ final r = BookForm.init.
Proof.
  pose proof (@submit_retry_after_rejection store_down store_up typed_in
                network_down eq_refl eq_refl eq_refl) as (H1 & _ & H2).
  exact (conj H1 H2).
Defined.

(** *** The text of a quantity *)

Lemma js_cons (c : ascii) (s : string) :
  js (String c s) = N_of_ascii c :: js s.
Proof. reflexivity. Qed.

Lemma digits_prefix_cons (c : ascii) (s : string) (v : Z) :
  digit_value 10 (N_of_ascii c) = Some v ->
  digits_prefix 10 (js (String c s)) = v :: digits_prefix 10 (js s).
Proof.
  intros H. rewrite js_cons. cbn [digits_prefix]. rewrite H. reflexivity.
Qed.

Ltac read_digit c v :=
  cbn [NilEmpty.string_of_uint];
  rewrite (@digits_prefix_cons c _ v eq_refl);
  cbn [fold_left Pos.of_uint_acc Pos.of_uint Z.of_N].

(** Reading the digits of [d] after digits worth [p] gives what the
    decimal library computes. *)
Lemma digits_after (d : Decimal.uint) (p : positive) :
  fold_left (fun acc v => (acc * 10 + v)%Z)
    (digits_prefix 10 (js (NilEmpty.string_of_uint d))) (Zpos p)
  = Zpos (Pos.of_uint_acc d p).
Proof.
  revert p.
  induction d as [|d IH|d IH|d IH|d IH|d IH|d IH|d IH|d IH|d IH|d IH];
    intros p.
  - reflexivity.
  - read_digit "0"%char 0%Z. rewrite <- IH. f_equal; lia.
  - read_digit "1"%char 1%Z. rewrite <- IH. f_equal; lia.
  - read_digit "2"%char 2%Z. rewrite <- IH. f_equal; lia.
  - read_digit "3"%char 3%Z. rewrite <- IH. f_equal; lia.
  - read_digit "4"%char 4%Z. rewrite <- IH. f_equal; lia.
  - read_digit "5"%char 5%Z. rewrite <- IH. f_equal; lia.
  - read_digit "6"%char 6%Z. rewrite <- IH. f_equal; lia.
  - read_digit "7"%char 7%Z. rewrite <- IH. f_equal; lia.
  - read_digit "8"%char 8%Z. rewrite <- IH. f_equal; lia.
  - read_digit "9"%char 9%Z. rewrite <- IH. f_equal; lia.
Qed.

Lemma mathInt_digits (d : Decimal.uint) :
  mathInt 10 (digits_prefix 10 (js (NilEmpty.string_of_uint d)))
  = Z.of_N (Pos.of_uint d).
Proof.
  unfold mathInt.
  induction d as [|d IH|d IH|d IH|d IH|d IH|d IH|d IH|d IH|d IH|d IH].
  - reflexivity.
  - read_digit "0"%char 0%Z. exact IH.
  - read_digit "1"%char 1%Z. apply digits_after.
  - read_digit "2"%char 2%Z. apply digits_after.
  - read_digit "3"%char 3%Z. apply digits_after.
  - read_digit "4"%char 4%Z. apply digits_after.
  - read_digit "5"%char 5%Z. apply digits_after.
  - read_digit "6"%char 6%Z. apply digits_after.
  - read_digit "7"%char 7%Z. apply digits_after.
  - read_digit "8"%char 8%Z. apply digits_after.
  - read_digit "9"%char 9%Z. apply digits_after.
Qed.

(** [parseInt] on a run of decimal digits, bare or after a minus sign:
    nothing is skipped, the radix stays 10, every digit is read. *)
Lemma parseInt_digits (d : Decimal.uint) :
  d <> Decimal.Nil ->
  let s := js (NilEmpty.string_of_uint d) in
  parseInt s = to_double (1 * mathInt 10 (digits_prefix 10 s))
  /\ parseInt (45%N :: s) = to_double (-1 * mathInt 10 (digits_prefix 10 s)).
Proof.
  intros Hd s; subst s.
  destruct d as [|d|d|d|d|d|d|d|d|d|d]; [contradiction| ..];
    destruct d; split; reflexivity.
Qed.

Lemma to_double_safe (z : Z) : safe_integer z -> to_double z = Num z.
Proof.
  unfold safe_integer, to_double. intros H.
  destruct (Z.ltb_spec (Z.abs z) (2 ^ 53)); [reflexivity | lia].
Qed.

Lemma toString_safe (z : Z) :
  safe_integer z -> toString (Num z) = digits_of z.
Proof.
  unfold safe_integer, toString. intros H.
  destruct (Z.ltb_spec (Z.abs z) (2 ^ 53)); [reflexivity | lia].
Qed.

(** The text of a safe integer reads back as the integer. *)
Lemma parseInt_toString (z : Z) :
  safe_integer z -> parseInt (toString (Num z)) = Num z.
Proof.
  intros Hsafe. rewrite (toString_safe Hsafe).
  rewrite <- (to_double_safe Hsafe). unfold digits_of.
  destruct z as [|p|p]; [reflexivity| |];
    unfold Z.to_int; cbn [NilZero.string_of_int];
    pose proof (DecimalPos.Unsigned.to_uint_nonnil p) as Hnil;
    assert (Hs : NilZero.string_of_uint (Pos.to_uint p)
                 = NilEmpty.string_of_uint (Pos.to_uint p))
      by (destruct (Pos.to_uint p); [contradiction | reflexivity ..]);
    rewrite Hs; try rewrite js_cons;
    destruct (parseInt_digits Hnil) as [Hpos Hneg].
  - rewrite Hpos, mathInt_digits, DecimalPos.Unsigned.of_to.
    f_equal.
  - change (N_of_ascii "-") with 45%N.
    rewrite Hneg, mathInt_digits, DecimalPos.Unsigned.of_to.
    f_equal.
Qed.

(** The digits of an integer start with a digit or a minus sign. *)
Lemma digits_of_head (z : Z) :
  exists (c : code_unit) (rest : jsstring),
    digits_of z = c :: rest /\ c <> 78%N.
Proof.
  unfold digits_of.
  destruct z as [|p|p]; unfold Z.to_int; cbn [NilZero.string_of_int].
  - eexists _, _. split; [reflexivity | discriminate].
  - pose proof (DecimalPos.Unsigned.to_uint_nonnil p) as Hnil.
    destruct (Pos.to_uint p); [contradiction| ..];
      (eexists _, _; split; [reflexivity | discriminate]).
  - eexists _, _. split; [reflexivity | discriminate].
Qed.

(** The text of a finite number starts with a digit. *)
Lemma render_head (x : Q) :
  exists (c : code_unit) (rest : jsstring),
    render x = c :: rest /\ c <> 78%N.
Proof.
  unfold render.
  destruct (shortest x (decimal_position x) 1 16) as [[n k] sh].
  destruct (digits_of_head sh) as (c & rest & Hds & Hc). rewrite Hds.
  destruct ((k <=? n) && (n <=? 21))%Z.
  { eexists _, _. split; [reflexivity | exact Hc]. }
  destruct ((0 <? n) && (n <=? 21))%Z eqn:Hn.
  { apply andb_true_iff in Hn. destruct Hn as [Hn _].
    apply Z.ltb_lt in Hn.
    destruct (Z.to_nat n) as [|m] eqn:Hm; [lia|].
    eexists _, _. split; [reflexivity | exact Hc]. }
  destruct ((-6 <? n) && (n <=? 0))%Z.
  { eexists _, _. split; [reflexivity | discriminate]. }
  destruct rest; eexists _, _; (split; [reflexivity | exact Hc]).
Qed.

Lemma toString_integer_not_NaN (z : Z) : toString (Num z) <> js "NaN".
Proof.
  unfold toString.
  destruct (Z.abs z <? 2 ^ 53)%Z.
  - destruct (digits_of_head z) as (c & rest & H & Hc). rewrite H.
    intros E. injection E as E _. contradiction.
  - destruct (render_head (QArith_base.inject_Z (Z.abs z)))
      as (c & rest & H & Hc).
    rewrite H. destruct (z <? 0)%Z; intros E; injection E as E _;
      [discriminate E | contradiction].
Qed.

Lemma toString_fraction_not_NaN (m : Z) (e : positive) :
  toString (Frac m e) <> js "NaN".
Proof.
  unfold toString.
  destruct (render_head (QArith_base.Qmake (Z.abs m) (2 ^ e)))
    as (c & rest & H & Hc).
  rewrite H. destruct (m <? 0)%Z; intros E; injection E as E _;
    [discriminate E | contradiction].
Qed.

(** X13: what [submit] sends for a valid draft is one [add] whose form
    has the four entries title, author, quantity, cover in that order.
    The cover entry is the chosen file, of an allowed type, never the text
    "null".  The quantity entry is the text of the draft's quantity, which
    is not [NaN] and not below 1: the digits of the integer when it is an
    integer below 2^53, and "Infinity" when it is positive infinity. *)
Theorem submit_payload_of_valid_draft
    (store : bookStore) (s : BookForm.state) :
  valid_draft (st_formData s) ->
  let q := quantity (st_formData s) in
  exists file : File,
    cover (st_formData s) = Some file
    /\ includes allowedTypes (type file) = true
    /\ at_least_one q
    /\ filter is_add (trace (submit store s))
       = [Add [ (js "title", Text (title (st_formData s)));
                (js "author", Text (author (st_formData s)));
                (js "quantity", Text (toString q));
                (js "cover", Blob file) ]]
    /\ toString q <> js "NaN"
    /\ (forall n : Z, q = Num n -> safe_integer n ->
        toString q = digits_of n)
    /\ (q = Infinity false -> toString q = js "Infinity").
Proof.
  intros Hvalid q; subst q.
  pose proof Hvalid as Hf. apply valid_draft_fields in Hf.
  destruct Hf as (_ & _ & Hq & (file & Hc & Hin)).
  exists file. repeat split; auto.
  - unfold submit. rewrite handleSubmit_run.
    rewrite (valid_draft_no_errors Hvalid).
    unfold payload. rewrite Hc.
    destruct (store_add store _) as [[]|err]; reflexivity.
  - destruct (quantity (st_formData s)) as [|[|]|z|m e];
      simpl in Hq; try contradiction; try discriminate.
    + apply toString_integer_not_NaN.
    + apply toString_fraction_not_NaN.
  - intros n Hn Hsafe. rewrite Hn. apply toString_safe. exact Hsafe.
  - intros ->. reflexivity.
Qed.

Lemma submit_payload_of_valid_draft_witness :
  exists file : File,
    filter is_add
      (trace (submit store_down
                {| st_formData := dune; st_preview := js "data:,";
                   st_errors := Errors.empty |}))
    = [Add [ (js "title", Text (js "Dune"));
             (js "author", Text (js "Herbert"));
             (js "quantity", Text (js "2"));
             (js "cover", Blob file) ]].
Proof.
  destruct (@submit_payload_of_valid_draft store_down
              {| st_formData := dune; st_preview := js "data:,";
                 st_errors := Errors.empty |} eq_refl)
    as (file & _ & _ & _ & H & _).
  exists file. exact H.
Defined.

(** X14: the quantity coercion of a field change is idempotent on what
    the form shows: when the draft's quantity is a safe integer that is at
    least 1, a change event of the quantity input that carries the text of
    that quantity leaves the draft as it is. *)
Theorem handleChange_displayed_quantity (s : BookForm.state) (n : Z) :
  quantity (st_formData s) = Num n ->
  (1 <= n)%Z ->
  safe_integer n ->
  st_formData
    (final (onFieldChange name_quantity (toString (quantity (st_formData s)))
              s))
  = st_formData s.
Proof.
  intros Hq Hn Hsafe.
  unfold onFieldChange, handleChange, bind, setFormData, ret.
  rewrite validate_run. cbn [final fst snd st_formData].
  rewrite Hq, (parseInt_toString Hsafe).
  assert (Hmax : Math_max (Num 1) (Num n) = Num n).
  { unfold Math_max, isNaN, lt. cbn [orb].
    destruct (Z.ltb_spec 1 n); [reflexivity | f_equal; lia]. }
  rewrite Hmax, <- Hq.
  destruct (st_formData s); reflexivity.
Qed.

Lemma handleChange_displayed_quantity_witness :
  let s := {| st_formData := dune; st_preview := js "data:,";
              st_errors := Errors.empty |} in
  st_formData (final (onFieldChange name_quantity (js "2") s)) = dune.
Proof.
  intros s.
  assert (Hsafe : safe_integer 2) by (unfold safe_integer; simpl; lia).
  assert (Hpos : (1 <= 2)%Z) by lia.
  exact (@handleChange_displayed_quantity s 2%Z eq_refl Hpos Hsafe).
Defined.

(** X15: the quantity that [submit] sends reads back as the draft's
    quantity: for a valid draft whose quantity is a safe integer, the
    "quantity" entry of the form handed to [add] is a text from which
    [parseInt] gets the draft's quantity again. *)
Theorem submit_quantity_round_trip
    (store : bookStore) (s : BookForm.state) (form : FormData)
    (t : jsstring) :
  valid_draft (st_formData s) ->
  (exists n : Z, quantity (st_formData s) = Num n /\ safe_integer n) ->
  In (Add form) (trace (submit store s)) ->
  In (js "quantity", Text t) form ->
  parseInt t = quantity (st_formData s).
Proof.
  intros Hvalid Hsafe Hadd Hentry.
  assert (Hform : form = payload (st_formData s)).
  { unfold submit in Hadd. rewrite handleSubmit_run in Hadd.
    rewrite (valid_draft_no_errors Hvalid) in Hadd.
    destruct (store_add store _) as [[]|err]; simpl in Hadd;
      repeat (destruct Hadd as [Hadd|Hadd];
              [try discriminate Hadd; injection Hadd; auto|]);
      contradiction. }
  subst form. unfold payload in Hentry. simpl in Hentry.
  destruct Hentry as [H|[H|[H|[H|[]]]]]; try discriminate H.
  injection H as <-.
  destruct Hsafe as (n & Hq & Hsafe). rewrite Hq.
  apply parseInt_toString. exact Hsafe.
Qed.

(** Past the safe integers the text does not read back: "Infinity" has no
    digit for [parseInt]. *)
Example infinity_does_not_read_back :
  toString (Infinity false) = js "Infinity"
  /\ parseInt (toString (Infinity false)) = NaN.
Proof. split; reflexivity. Qed.

Lemma submit_quantity_round_trip_witness :
  parseInt (js "2") = Num 2.
Proof.
  assert (Hsafe : exists n : Z, Num 2 = Num n /\ safe_integer n).
  { exists 2%Z. split; [reflexivity|]. unfold safe_integer. simpl. lia. }
  exact (@submit_quantity_round_trip store_up
           {| st_formData := dune; st_preview := js "data:,";
              st_errors := Errors.empty |}
           (payload dune) (js "2") eq_refl Hsafe
           (or_intror (or_intror (or_introl eq_refl)))
           (or_intror (or_intror (or_introl eq_refl)))).
Defined.

(** *** Book service *)

(** X16: the calls of the book service address books consistently: [get],
    [update] and [remove] of one id use the same path and the methods
    GET, PUT and DELETE; two safe integer ids have the same path only if
    they are the same id; the path of a book is never the path of the
    collection, which [getAll] and [create] share. *)
Theorem book_paths
    (P : Type) (id1 id2 : Z) (data : P) (form : FormData) :
  safe_integer id1 ->
  safe_integer id2 ->
  let api := @BookService.recording P in
  let book := BookService.path (BookService.get api (Num id1)) in
  BookService.path (BookService.update api (Num id1) data) = book
  /\ BookService.path (BookService.remove api (Num id1)) = book
  /\ map (@BookService.verb P)
       [BookService.get api (Num id1);
        BookService.update api (Num id1) data;
        BookService.remove api (Num id1);
        BookService.getAll api; BookService.create api form]
     = [BookService.GET; BookService.PUT; BookService.DELETE;
        BookService.GET; BookService.POST]
  /\ (BookService.path (BookService.get api (Num id2)) = book -> id1 = id2)
  /\ book <> BookService.path (BookService.getAll api)
  /\ BookService.path (BookService.create api form)
     = BookService.path (BookService.getAll api)
  /\ BookService.req_body (BookService.create api form)
     = BookService.FormBody P form.
Proof.
  intros Hsafe1 Hsafe2 api book; subst book api.
  unfold BookService.recording, BookService.get, BookService.update,
    BookService.remove, BookService.getAll, BookService.create.
  cbn [BookService.path BookService.verb BookService.req_body map].
  repeat split.
  - intros H. apply app_inv_head in H.
    apply (f_equal parseInt) in H.
    rewrite (parseInt_toString Hsafe1), (parseInt_toString Hsafe2) in H.
    injection H; auto.
  - intros H. apply (f_equal (@List.length N)) in H.
    rewrite length_app in H. simpl in H. lia.
Qed.

Lemma book_paths_witness :
  BookService.path
    (BookService.get (@BookService.recording unit) (Num 7))
  <> BookService.path
       (BookService.getAll (@BookService.recording unit)).
Proof.
  assert (Hsafe : safe_integer 7) by (unfold safe_integer; simpl; lia).
  exact (proj1 (proj2 (proj2 (proj2 (proj2
           (@book_paths unit 7%Z 7%Z tt [] Hsafe Hsafe)))))).
Defined.
